(** * Elastic pipeline-parallel training driver: partition boundaries,
    rendezvous parameters and the components behind them

  The development embeds [test_encoder] of
  [external/deepspeed/DeepSpeedExamples/pipeline_parallelism/transformer.py]
  and states the properties of the coordinator it drives.  Python integers
  are unbounded, hence [Z]; lists are [list]; dictionaries are [gmap];
  exceptions are an explicit [result] type. *)

From Stdlib Require Import Ascii.
From stdpp Require Import gmap strings list fin_maps pretty.

Local Open Scope Z_scope.

(** ** Python values and exceptions *)

Module Py.

(** The exceptions the embedded code can raise.  [Other] carries the name
    of an exception raised by a collaborator outside of this file. *)
Inductive exn : Type :=
| AssertionError
| IndexError
| KeyError (key : string)
| ValueError
| TypeError
| ZeroDivisionError
| Other (name : string).

Inductive result (A : Type) : Type :=
| Ok (a : A)
| Raise (e : exn).
Global Arguments Ok {A} a.
Global Arguments Raise {A} e.

Definition bind {A B} (r : result A) (k : A → result B) : result B :=
  match r with
  | Ok a => k a
  | Raise e => Raise e
  end.

(** [assert c] *)
Definition assert (c : bool) : result unit :=
  if c then Ok tt else Raise AssertionError.

(** [[f(x) for x in l]] where [f] may raise: left to right, first failure
    wins. *)
Fixpoint traverse {A B} (f : A → result B) (l : list A) : result (list B) :=
  match l with
  | [] => Ok []
  | x :: l' =>
      bind (f x) (λ y, bind (traverse f l') (λ ys, Ok (y :: ys)))
  end.

(** The builtin [sum] over a list of ints: a left fold from [0]. *)
Definition sum (l : list Z) : Z := foldl Z.add 0 l.

(** [s.split(sep)] for a one-character separator: every occurrence
    splits, and the empty string gives one empty field. *)
Fixpoint split (sep : ascii) (s : string) : list string :=
  match s with
  | EmptyString => [EmptyString]
  | String c s' =>
      if decide (c = sep) then EmptyString :: split sep s'
      else match split sep s' with
           | w :: ws => String c w :: ws
           | [] => [String c EmptyString]
           end
  end.

(** Truth value of a [str]: non-empty. *)
Definition truthy_str (s : string) : bool :=
  match s with EmptyString => false | _ => true end.

(** Truth value of a [list]: non-empty. *)
Definition truthy_list {A} (l : list A) : bool :=
  match l with [] => false | _ => true end.

End Py.

Import Py.

(** [result] as an error monad, with stdpp's [x ← r; k] and [r ;; k]. *)
Global Instance result_ret : MRet result := λ A a, Ok a.
Global Instance result_bind : MBind result := λ A B k r, Py.bind r k.

(** ** Lines 257-262: the custom partition boundaries *)

(** [parts[-1] += 2]: an empty list has no last element. *)
Definition widen_last (parts : list Z) : result (list Z) :=
  match parts !! pred (length parts) with
  | Some p => Ok (<[pred (length parts) := p + 2]> parts)
  | None => Raise IndexError
  end.

(** [[0] + [sum(parts[:i]) + p for i, p in enumerate(parts)]] *)
Definition boundaries (parts : list Z) : list Z :=
  0 :: imap (λ i p, Py.sum (take i parts) + p) parts.

(** The body of [if args.parts:] once the sizes are parsed: the assertion,
    the widening of the last entry, the conversion to boundaries. *)
Definition custom_partitions (N : Z) (sizes : list Z) : result (list Z) :=
  assert (bool_decide (Py.sum sizes = N));;
  widened ← widen_last sizes;
  Ok (boundaries widened).

(** The boundaries are the prefix sums of the sizes the caller gave:
    boundary [j] is the sum of the first [j] sizes, for every [j] from [0]
    to the number of sizes. *)
Definition boundaries_match_prefix_sums (N : Z) (sizes : list Z) : Prop :=
  ∃ bs, custom_partitions N sizes = Ok bs
    ∧ ∀ j, (j ≤ length sizes)%nat → bs !! j = Some (Py.sum (take j sizes)).

(** ** Line 250: the layer list given to the pipeline *)

Inductive layer : Type :=
| EncoderLayer (copy : nat)   (* one of the deep copies made by [clones] *)
| FinalNorm                   (* [encoder.norm] *)
| SumLast.                    (* [lambda x: x.sum(-1)] *)

(** [clones(layer, N)]: one copy per element of [range(N)], none when
    [N <= 0]. *)
Definition clones (N : Z) : list layer :=
  EncoderLayer <$> seq 0 (Z.to_nat N).

Definition layers (N : Z) : list layer :=
  clones N ++ [FinalNorm; SumLast].

(** Number of steps appended after the encoder layers on line 250. *)
Definition trailing_steps : Z := Z.of_nat (length [FinalNorm; SumLast]).

(** Whether a step of the layer list holds parameters: [LayerNorm]
    declares [a_2] and [b_2] as [nn.Parameter] (lines 81-82), an encoder
    layer holds the linear maps of its attention and feed-forward blocks
    and the norms of its sublayers; the lambda of line 250 holds none. *)
Definition has_parameters (l : layer) : bool :=
  match l with
  | EncoderLayer _ | FinalNorm => true
  | SumLast => false
  end.

(** The last stage is wider than the size the caller gave, and every
    step after the [N] counted layers holds no parameters and lies in the
    last stage. *)
Definition last_stage_covers_unparameterized_tail (N : Z) (sizes : list Z)
  : Prop :=
  ∃ bs p lo hi,
    custom_partitions N sizes = Ok bs
    ∧ last sizes = Some p
    ∧ bs !! pred (length sizes) = Some lo
    ∧ bs !! length sizes = Some hi
    ∧ p < hi - lo
    ∧ ∀ k l, layers N !! k = Some l → (Z.to_nat N ≤ k)%nat →
        has_parameters l = false ∧ lo ≤ Z.of_nat k < hi.

(** A list of boundaries that never decreases. *)
Definition nondecreasing (bs : list Z) : Prop :=
  ∀ j a b, bs !! j = Some a → bs !! S j = Some b → a ≤ b.

(** The boundary list has one entry more than there are sizes, starts at
    [0], never decreases and ends at [N + 2], the length of the layer list
    given to the pipeline, every element of which lies in a stage. *)
Definition boundaries_cover_layers (N : Z) (sizes : list Z) : Prop :=
  ∃ bs, custom_partitions N sizes = Ok bs
    ∧ length bs = S (length sizes)
    ∧ bs !! 0%nat = Some 0
    ∧ nondecreasing bs
    ∧ last bs = Some (N + 2)
    ∧ Z.of_nat (length (layers N)) = N + 2
    ∧ (∀ k, (k < length (layers N))%nat →
         ∃ j a b, (j < length sizes)%nat ∧ bs !! j = Some a
           ∧ bs !! S j = Some b ∧ a ≤ Z.of_nat k < b).

(** ** The run of [test_encoder]

    [test_encoder] reads the process environment, calls into the rendezvous
    handler, DeepSpeed and torch, and stops at the first exception.  A run
    is the list of the external calls it made, in order, with its result. *)

(** What [json.loads] returns. *)
#[local] Set Warnings "-register-all".
Inductive json : Type :=
| JNone
| JBool (b : bool)
| JInt (z : Z)
| JFloat (literal : string)
| JStr (s : string)
| JList (l : list json)
| JDict (d : gmap string json).
#[local] Set Warnings "register-all".

(** [obj[key] = v]: only a dict accepts a string key. *)
Definition setitem (obj : json) (key : string) (v : json)
  : result (gmap string json) :=
  match obj with
  | JDict d => Ok (<[key := v]> d)
  | _ => Raise TypeError
  end.

(** A worker of the global decision. *)
Record WorkerIdentity : Type := {
  process_id : string;
  address : string;
}.

Global Instance WorkerIdentity_eq_dec : EqDecision WorkerIdentity.
Proof. solve_decision. Defined.

(** The fields of [args] that [test_encoder] reads, under their names in
    [get_args]. *)
Module Args.
Record t : Type := {
  steps : Z;
  backend : string;
  redundancy_level : Z;
  eager : bool;
  debug : bool;
  mem_log : bool;
  seed : Z;
  N : Z;
  d_model : Z;
  d_ff : Z;
  H : Z;
  seq : Z;
  parts : string;
}.
End Args.

(** The keyword arguments of the [RendezvousParameters] call, lines 232-239:
    five explicit ones and the unpacked [**rdzv_configs]. *)
Record rdzv_kwargs : Type := {
  kw_backend : string;
  kw_endpoint : string;
  kw_run_id : string;
  kw_min_nodes : Z;
  kw_max_nodes : Z;
  kw_configs : gmap string json;
}.

Definition explicit_keywords : list string :=
  ["backend"; "endpoint"; "run_id"; "min_nodes"; "max_nodes"]%string.

(** A key of the unpacked dict that repeats an explicit keyword is a
    [TypeError] at the call. *)
Definition keyword_call (backend endpoint run_id : string)
    (min_nodes max_nodes : Z) (configs : gmap string json)
  : result rdzv_kwargs :=
  if bool_decide (Exists (λ k, is_Some (configs !! k)) explicit_keywords)
  then Raise TypeError
  else Ok {| kw_backend := backend; kw_endpoint := endpoint;
             kw_run_id := run_id; kw_min_nodes := min_nodes;
             kw_max_nodes := max_nodes; kw_configs := configs |}.

(** The arguments of the [PipelineModule] call, lines 263-269. *)
Inductive partition_method : Type := uniform | custom.

Record pipeline_args : Type := {
  pm_layers : list layer;
  pm_num_stages : Z;
  pm_partition_method : partition_method;
  pm_custom_partitions : list Z;
}.

(** The external calls of [test_encoder]. *)
Inductive event : Type :=
| EvRendezvousParameters (kw : rdzv_kwargs)
| EvCreateRdzvHandler (kw : rdzv_kwargs)
| EvSetupKvStore
| EvInitDistributed (backend : string) (rank world_size : Z)
| EvMakeEncoder (N d_model d_ff h : Z)
| EvGetGlobalDecision
| EvTopology (pipe_parallel_size data_parallel_size : Z)
    (decision : list WorkerIdentity)
| EvPipelineModule (a : pipeline_args)
| EvSeed (seed : Z)
| EvDataset (seq d_model : Z)
| EvInitialize (redundancy_level : Z) (eager_recovery : bool)
| EvTrainBatch (debug mem_log : bool).

(** The collaborators whose code is outside of [test_encoder]: Python
    builtins, torch, DeepSpeed and the rendezvous handler.  Each is any
    function of its arguments that returns or raises. *)
Record world : Type := {
  py_int : string → result Z;
  json_loads : string → result json;
  RendezvousParameters : rdzv_kwargs → result unit;
  create_rdzv_handler : rdzv_kwargs → result unit;
  setup_kv_store : result unit;
  init_distributed : string → Z → Z → result unit;
  nn_modules : Z → Z → Z → Z → result unit;
  get_global_decision : result (list WorkerIdentity);
  PipeDataParallelTopology : Z → Z → list WorkerIdentity → result unit;
  PipelineModule : pipeline_args → result unit;
  random_seed : Z → result unit;
  DummyDataset : Z → Z → result unit;
  initialize : Z → bool → result Z;
  train_batch : nat → bool → bool → result unit;
}.

Definition prog (A : Type) : Type := (list event * result A)%type.

Global Instance prog_ret : MRet prog := λ A a, ([], Ok a).
Global Instance prog_bind : MBind prog := λ A B k m,
  match m with
  | (t, Ok a) => let '(t', r) := k a in (t ++ t', r)
  | (t, Raise e) => (t, Raise e)
  end.

(** A step of the function itself: no external call. *)
Definition pure {A} (r : result A) : prog A := ([], r).

(** An external call: recorded, then it returns or raises. *)
Definition call {A} (ev : event) (r : result A) : prog A := ([ev], r).

(** [os.environ[key]] *)
Definition environ_get (environ : gmap string string) (key : string)
  : result string :=
  match environ !! key with
  | Some v => Ok v
  | None => Raise (KeyError key)
  end.

Section test_encoder.

Variable W : world.
Variable environ : gmap string string.

(** [int(os.environ[key])] *)
Definition environ_int (key : string) : result Z :=
  v ← environ_get environ key; py_int W v.

(** Lines 225-240: the rendezvous handler. *)
Definition rendezvous : prog rdzv_kwargs :=
  let rdzv_backend := "etcd-v2"%string in
  rdzv_endpoint ← pure (environ_get environ "PROJECT_PACTUM_ENDPOINT");
  run_id ← pure (environ_get environ "PROJECT_PACTUM_RUN_ID");
  min_nodes ← pure (environ_int "PROJECT_PACTUM_MIN_NODES");
  max_nodes ← pure (environ_int "PROJECT_PACTUM_MAX_NODES");
  blob ← pure (environ_get environ "PROJECT_PACTUM_RDZV_CONFIGS");
  loaded ← pure (json_loads W blob);
  rdzv_configs ← pure (setitem loaded "last_call_timeout" (JInt 1));
  kw ← pure (keyword_call rdzv_backend rdzv_endpoint run_id
               min_nodes max_nodes rdzv_configs);
  call (EvRendezvousParameters kw) (RendezvousParameters W kw);;
  call (EvCreateRdzvHandler kw) (create_rdzv_handler W kw);;
  mret kw.

(** [make_encoder]: the assertion of [MultiHeadedAttention], then the
    torch modules; [Encoder] holds [clones(layer, N)] and the final norm. *)
Definition make_encoder (N d_model d_ff h : Z) : prog (list layer * layer) :=
  pure (if bool_decide (h = 0) then Raise ZeroDivisionError
        else assert (bool_decide (d_model `mod` h = 0)));;
  call (EvMakeEncoder N d_model d_ff h) (nn_modules W N d_model d_ff h);;
  mret (clones N, FinalNorm).

(** Lines 257-262, from the command-line string. *)
Definition partition_of_args (args : Args.t) : result (list Z) :=
  if truthy_str (Args.parts args) then
    sizes ← traverse (py_int W) (split ","%char (Args.parts args));
    custom_partitions (Args.N args) sizes
  else Ok [].

(** Lines 282-283: one [train_batch] per element of
    [range(engine.global_steps, args.steps)]; [i] numbers the calls. *)
Fixpoint train_loop (args : Args.t) (i : nat) (count : nat) : prog unit :=
  match count with
  | O => mret tt
  | S count' =>
      call (EvTrainBatch (Args.debug args) (Args.mem_log args))
           (train_batch W i (Args.debug args) (Args.mem_log args));;
      train_loop args (S i) count'
  end.

(** Lines 221-255: everything before the partition is computed. *)
Definition setup (args : Args.t)
  : prog (list layer * Z * Z) :=
  rendezvous;;
  rank ← pure (environ_int "RANK");
  world_size ← pure (environ_int "WORLD_SIZE");
  call EvSetupKvStore (setup_kv_store W);;
  call (EvInitDistributed (Args.backend args) rank world_size)
       (init_distributed W (Args.backend args) rank world_size);;
  encoder ← make_encoder (Args.N args) (Args.d_model args) (Args.d_ff args) (Args.H args);
  let layers := encoder.1 ++ [encoder.2; SumLast] in
  data_parallel_size ← pure (environ_int "PROJECT_PACTUM_NUM_PIPELINES");
  pipe_parallel_size ← pure (environ_int "PROJECT_PACTUM_NUM_STAGES");
  global_decision ← call EvGetGlobalDecision (get_global_decision W);
  call (EvTopology pipe_parallel_size data_parallel_size global_decision)
       (PipeDataParallelTopology W pipe_parallel_size data_parallel_size
          global_decision);;
  mret (layers, data_parallel_size, pipe_parallel_size).

(** Lines 263-283: the pipeline model, the engine and the training loop. *)
Definition train (args : Args.t) (layers : list layer)
    (pipe_parallel_size : Z) (parts : list Z) : prog unit :=
  let a := {| pm_layers := layers;
              pm_num_stages := pipe_parallel_size;
              pm_partition_method :=
                if negb (truthy_list parts) then uniform else custom;
              pm_custom_partitions := parts |} in
  call (EvPipelineModule a) (PipelineModule W a);;
  call (EvSeed (Args.seed args)) (random_seed W (Args.seed args));;
  call (EvDataset (Args.seq args) (Args.d_model args))
       (DummyDataset W (Args.seq args) (Args.d_model args));;
  global_steps ← call (EvInitialize (Args.redundancy_level args) (Args.eager args))
                      (initialize W (Args.redundancy_level args) (Args.eager args));
  train_loop args 0 (Z.to_nat (Args.steps args - global_steps)).

Definition test_encoder (args : Args.t) : prog unit :=
  '(layers, _, pipe_parallel_size) ← setup args;
  parts ← pure (partition_of_args args);
  train args layers pipe_parallel_size parts.

End test_encoder.

(** The calls that build the pipeline model and the engine and run the
    training steps: everything [test_encoder] does once the partition is
    known. *)
Definition is_training_event (ev : event) : bool :=
  match ev with
  | EvPipelineModule _ | EvSeed _ | EvDataset _ _
  | EvInitialize _ _ | EvTrainBatch _ _ => true
  | _ => false
  end.

(** The calls that construct model state: the torch modules of the
    encoder layers (line 248), the pipeline model (line 263) and the engine
    (line 274). *)
Definition builds_model_state (ev : event) : bool :=
  match ev with
  | EvMakeEncoder _ _ _ _ | EvPipelineModule _ | EvInitialize _ _ => true
  | _ => false
  end.

(** The run fails on the partition sizes with no boundaries produced and
    no model state constructed. *)
Definition fails_before_model_state (W : world)
    (environ : gmap string string) (args : Args.t) : Prop :=
  partition_of_args W args = Raise AssertionError
  ∧ (test_encoder W environ args).2 = Raise AssertionError
  ∧ Forall (λ ev, builds_model_state ev = false)
      (test_encoder W environ args).1.

(** *** A world to run [test_encoder] in

    Collaborators that always return, an [int] that reads plain decimal
    numerals, and a configuration blob that asks for a last-call timeout of
    30 seconds. *)

Definition digit_of (c : ascii) : option Z :=
  let n := Z.of_N (N_of_ascii c) in
  if bool_decide (48 ≤ n ≤ 57) then Some (n - 48) else None.

Fixpoint decimal_from (acc : Z) (s : string) : result Z :=
  match s with
  | EmptyString => Ok acc
  | String c s' =>
      match digit_of c with
      | Some d => decimal_from (10 * acc + d) s'
      | None => Raise ValueError
      end
  end.

Definition decimal (s : string) : result Z :=
  match s with
  | EmptyString => Raise ValueError
  | _ => decimal_from 0 s
  end.

Definition example_decision : list WorkerIdentity :=
  [ {| process_id := "0"; address := "10.0.0.1" |};
    {| process_id := "1"; address := "10.0.0.2" |} ].

(** Six workers on three hosts, in registration order. *)
Definition six_workers : list WorkerIdentity :=
  [ {| process_id := "0"; address := "10.0.0.1" |};
    {| process_id := "1"; address := "10.0.0.1" |};
    {| process_id := "2"; address := "10.0.0.2" |};
    {| process_id := "3"; address := "10.0.0.2" |};
    {| process_id := "4"; address := "10.0.0.3" |};
    {| process_id := "5"; address := "10.0.0.3" |} ].

Definition example_world : world := {|
  py_int := decimal;
  json_loads := λ _, Ok (JDict {[ "last_call_timeout"%string := JInt 30 ]});
  RendezvousParameters := λ _, Ok tt;
  create_rdzv_handler := λ _, Ok tt;
  setup_kv_store := Ok tt;
  init_distributed := λ _ _ _, Ok tt;
  nn_modules := λ _ _ _ _, Ok tt;
  get_global_decision := Ok example_decision;
  PipeDataParallelTopology := λ _ _ _, Ok tt;
  PipelineModule := λ _, Ok tt;
  random_seed := λ _, Ok tt;
  DummyDataset := λ _ _, Ok tt;
  initialize := λ _ _, Ok 0;
  train_batch := λ _ _ _, Ok tt;
|}.

Definition example_environ : gmap string string :=
  list_to_map
    [ ("PROJECT_PACTUM_ENDPOINT", "10.0.0.9:2379");
      ("PROJECT_PACTUM_RUN_ID", "run");
      ("PROJECT_PACTUM_MIN_NODES", "2");
      ("PROJECT_PACTUM_MAX_NODES", "4");
      ("PROJECT_PACTUM_RDZV_CONFIGS",
        "{" +:+ String "034" "last_call_timeout" +:+ String "034" ": 30}");
      ("RANK", "0");
      ("WORLD_SIZE", "2");
      ("PROJECT_PACTUM_NUM_PIPELINES", "1");
      ("PROJECT_PACTUM_NUM_STAGES", "2") ]%string.

(** The defaults of [get_args], with the given [--parts]. *)
Definition example_args (parts : string) : Args.t := {|
  Args.steps := 10;
  Args.backend := "nccl";
  Args.redundancy_level := 0;
  Args.eager := false;
  Args.debug := false;
  Args.mem_log := false;
  Args.seed := 1138;
  Args.N := 8;
  Args.d_model := 1024;
  Args.d_ff := 2048;
  Args.H := 16;
  Args.seq := 512;
  Args.parts := parts;
|}.

(** The keyword arguments the handler is created with in that world. *)
Definition example_kwargs : rdzv_kwargs := {|
  kw_backend := "etcd-v2";
  kw_endpoint := "10.0.0.9:2379";
  kw_run_id := "run";
  kw_min_nodes := 2;
  kw_max_nodes := 4;
  kw_configs :=
    <["last_call_timeout"%string := JInt 1]>
      {[ "last_call_timeout"%string := JInt 30 ]};
|}.

(** ** The coordinator components behind the calls

    [PipeDataParallelTopology], the partitioner inside [PipelineModule], the
    recovery logic behind [deepspeed.initialize] and the rendezvous handler
    are called by [test_encoder] and defined elsewhere.  They are modelled
    from their specification. *)

Module Coordinator.

Local Open Scope nat_scope.

(** Modelled from the spec: the error taxonomy of the coordinator, whose
    code is not among the sources.  [RecoverableLoss] is an event of the
    recovery plan, not an error. *)
Inductive error : Type :=
| RendezvousTimeout
| CoordinationUnavailable
| TopologyMismatch
| PartitionSizeMismatch
| UnrecoverableLoss.

(** Modelled from the spec: every error of the taxonomy is fatal to the
    job. *)
Definition fatal (e : error) : bool :=
  match e with
  | RendezvousTimeout | CoordinationUnavailable | TopologyMismatch
  | PartitionSizeMismatch | UnrecoverableLoss => true
  end.

Inductive outcome (A : Type) : Type :=
| Done (a : A)
| Fail (e : error).
Global Arguments Done {A} a.
Global Arguments Fail {A} e.

(** *** Topology Builder *)

Record GridCoordinate : Type := {
  pipeline_rank : nat;
  data_parallel_rank : nat;
}.

Global Instance GridCoordinate_eq_dec : EqDecision GridCoordinate.
Proof. solve_decision. Defined.

(** Modelled from the spec: the row-major assignment of the Topology
    Builder (the topology class of the DeepSpeed fork is not among the
    sources): the i-th worker in decision order gets
    [pipeline_rank = i // D], [data_parallel_rank = i % D]. *)
Definition row_major (D i : nat) : GridCoordinate :=
  {| pipeline_rank := i / D; data_parallel_rank := i mod D |}.

(** Modelled from the spec: [build(decision, pipeline_size, data_parallel_size)]
    of the Topology Builder, absent from the sources.  Precondition
    [P * D == len(decision)]; its violation fails with [TopologyMismatch]. *)
Definition build (decision : list WorkerIdentity) (P D : nat)
  : outcome (list (WorkerIdentity * GridCoordinate)) :=
  if decide (P * D = length decision)
  then Done (imap (λ i w, (w, row_major D i)) decision)
  else Fail TopologyMismatch.

(** The grid [[0,P) × [0,D)]. *)
Definition in_grid (P D : nat) (c : GridCoordinate) : Prop :=
  pipeline_rank c < P ∧ data_parallel_rank c < D.

(** *** Stage Partitioner, uniform mode *)

(** Modelled from the spec: the uniform mode of the Stage Partitioner (the
    partitioner of the DeepSpeed fork is not among the sources): [N] layers
    in [P] contiguous parts, as evenly as possible, determined by [(N, P)]
    alone.  Boundary [j] is [j * N // P]. *)
Definition uniform_boundary (N P j : nat) : nat := j * N / P.

(** Modelled from the spec: the [P] half-open ranges of the uniform mode. *)
Definition partition_uniform (N P : nat) : list (nat * nat) :=
  (λ j, (uniform_boundary N P j, uniform_boundary N P (S j))) <$> seq 0 P.

Definition range_size (r : nat * nat) : nat := r.2 - r.1.

Definition in_range (k : nat) (r : nat * nat) : Prop := r.1 ≤ k < r.2.

(** *** Redundancy and Recovery Manager *)

(** Modelled from the spec: the RedundancyGroup of pipeline rank [p], for a
    decision laid out row-major on a grid with [D] data-parallel slots per
    stage: the first [R + 1] consecutive slots of the stage's row, hence up
    to [R + 1] workers.  The manager's code is not among the sources. *)
Definition stage_row (decision : list WorkerIdentity) (D p : nat)
  : list WorkerIdentity :=
  take D (drop (p * D) decision).

Definition redundancy_group (decision : list WorkerIdentity) (D R p : nat)
  : list WorkerIdentity :=
  take (R + 1) (stage_row decision D p).









(** *** Rendezvous Engine *)

(** Modelled from the spec: the configuration of a round.  Time is counted
    in ticks of a clock started when the round opens; [setup_timeout] is
    the overall bound on reaching [min_nodes]. *)
Record RoundConfig : Type := {
  min_nodes : nat;
  max_nodes : nat;
  last_call_timeout : nat;
  setup_timeout : nat;
}.

Inductive round_status : Type :=
| Open
| Closed (decision : list WorkerIdentity)
| TimedOut.

Record round : Type := {
  registered : list WorkerIdentity;
  clock : nat;
  quorum_at : option nat;
  status : round_status;
}.

Definition open_round : round :=
  {| registered := []; clock := 0; quorum_at := None; status := Open |}.

(** What a round observes: a worker registering, or time passing. *)
Inductive round_event : Type :=
| Register (w : WorkerIdentity)
| Tick.

(** Modelled from the spec: one step of the join protocol of the
    Rendezvous Engine, whose code is not among the sources.
    - a worker registers by appending its identity (once);
    - the round closes when [max_nodes] is reached, or when the last-call
      window elapses with at least [min_nodes] registered;
    - a round that has not reached [min_nodes] when the setup timeout
      elapses fails;
    - a closed or failed round is immutable. *)
Definition round_step (cfg : RoundConfig) (r : round) (ev : round_event)
  : round :=
  match status r with
  | Open =>
      match ev with
      | Register w =>
          if decide (w ∈ registered r) then r
          else
            let reg := registered r ++ [w] in
            if decide (max_nodes cfg ≤ length reg) then
              {| registered := reg; clock := clock r;
                 quorum_at := quorum_at r; status := Closed reg |}
            else if decide (min_nodes cfg ≤ length reg) then
              {| registered := reg; clock := clock r;
                 quorum_at := match quorum_at r with
                              | Some t => Some t
                              | None => Some (clock r)
                              end;
                 status := Open |}
            else
              {| registered := reg; clock := clock r;
                 quorum_at := quorum_at r; status := Open |}
      | Tick =>
          let now := S (clock r) in
          match quorum_at r with
          | Some t =>
              if decide (t + last_call_timeout cfg ≤ now) then
                {| registered := registered r; clock := now;
                   quorum_at := Some t; status := Closed (registered r) |}
              else
                {| registered := registered r; clock := now;
                   quorum_at := Some t; status := Open |}
          | None =>
              if decide (setup_timeout cfg ≤ now) then
                {| registered := registered r; clock := now;
                   quorum_at := None; status := TimedOut |}
              else
                {| registered := registered r; clock := now;
                   quorum_at := None; status := Open |}
          end
      end
  | _ => r
  end.

Definition run_round (cfg : RoundConfig) (evs : list round_event) : round :=
  foldl (round_step cfg) open_round evs.

(** Modelled from the spec: what [join] returns to a worker of the round
    once the events have happened: the decision of a closed round,
    [RendezvousTimeout] for a failed one, nothing while it is open. *)
Definition join (cfg : RoundConfig) (evs : list round_event)
  : option (outcome (list WorkerIdentity)) :=
  match status (run_round cfg evs) with
  | Open => None
  | Closed d => Some (Done d)
  | TimedOut => Some (Fail RendezvousTimeout)
  end.

(** The number of ticks among the events. *)
Fixpoint ticks (evs : list round_event) : nat :=
  match evs with
  | [] => 0
  | Tick :: evs' => S (ticks evs')
  | Register _ :: evs' => ticks evs'
  end.

(** A round below quorum: still waiting with the clock below the setup
    timeout, or failed once the timeout has elapsed. *)
Definition below_quorum (cfg : RoundConfig) (evs : list round_event)
    (r : round) : Prop :=
  quorum_at r = None
  ∧ ((status r = Open ∧ clock r = ticks evs
      ∧ clock r < setup_timeout cfg)
     ∨ (status r = TimedOut ∧ setup_timeout cfg ≤ ticks evs)).

End Coordinator.

(** ** More of [transformer.py] *)

(** [MultiHeadedAttention.__init__], lines 110-112: the assertion that the
    heads divide the model width, then [self.d_k = d_model // h] and
    [self.h = h].  The result is [(d_k, h)]; the torch modules made on the
    lines after are not part of it. *)
Definition MultiHeadedAttention_init (h d_model : Z) : result (Z * Z) :=
  (if bool_decide (h = 0) then Raise ZeroDivisionError
   else assert (bool_decide (d_model `mod` h = 0)));;
  Ok (d_model `div` h, h).

(** [Encoder.join_layers], lines 194-195. *)
Definition join_layers (N : Z) : list layer :=
  clones N ++ [FinalNorm].

(** The number of layers of each stage, read back from a list of
    boundaries: entry [j + 1] minus entry [j]. *)
Definition stage_sizes (bs : list Z) : list Z :=
  zip_with (λ lo hi, hi - lo) bs (tail bs).

(** The variables [test_encoder] reads before its first external call,
    lines 226-230. *)
Definition rendezvous_variables : list string :=
  [ "PROJECT_PACTUM_ENDPOINT"; "PROJECT_PACTUM_RUN_ID";
    "PROJECT_PACTUM_MIN_NODES"; "PROJECT_PACTUM_MAX_NODES";
    "PROJECT_PACTUM_RDZV_CONFIGS" ]%string.

Definition is_train_batch (ev : event) : bool :=
  match ev with EvTrainBatch _ _ => true | _ => false end.

(** The calls that come after the encoder is requested: line 248 on. *)
Definition after_encoder_check (ev : event) : bool :=
  match ev with
  | EvMakeEncoder _ _ _ _ | EvGetGlobalDecision | EvTopology _ _ _ => true
  | _ => is_training_event ev
  end.

(** Lines 225-239 up to the call: what is read and computed before the
    first external call. *)
Definition rendezvous_kwargs (W : world) (environ : gmap string string)
  : result rdzv_kwargs :=
  rdzv_endpoint ← environ_get environ "PROJECT_PACTUM_ENDPOINT";
  run_id ← environ_get environ "PROJECT_PACTUM_RUN_ID";
  min_nodes ← environ_int W environ "PROJECT_PACTUM_MIN_NODES";
  max_nodes ← environ_int W environ "PROJECT_PACTUM_MAX_NODES";
  blob ← environ_get environ "PROJECT_PACTUM_RDZV_CONFIGS";
  loaded ← json_loads W blob;
  rdzv_configs ← setitem loaded "last_call_timeout" (JInt 1);
  keyword_call "etcd-v2" rdzv_endpoint run_id min_nodes max_nodes
    rdzv_configs.

(** The example world with a configuration blob that decodes to a list. *)
Definition list_config_world : world := {|
  py_int := decimal;
  json_loads := λ _, Ok (JList [JInt 30]);
  RendezvousParameters := λ _, Ok tt;
  create_rdzv_handler := λ _, Ok tt;
  setup_kv_store := Ok tt;
  init_distributed := λ _ _ _, Ok tt;
  nn_modules := λ _ _ _ _, Ok tt;
  get_global_decision := Ok example_decision;
  PipeDataParallelTopology := λ _ _ _, Ok tt;
  PipelineModule := λ _, Ok tt;
  random_seed := λ _, Ok tt;
  DummyDataset := λ _ _, Ok tt;
  initialize := λ _ _, Ok 0;
  train_batch := λ _ _ _, Ok tt;
|}.

(** Lines 225-246 of [test_encoder]: the rendezvous handler and the
    process group, everything before the encoder is made. *)
Definition process_group (W : world) (environ : gmap string string)
    (args : Args.t) : prog unit :=
  rendezvous W environ;;
  rank ← pure (environ_int W environ "RANK");
  world_size ← pure (environ_int W environ "WORLD_SIZE");
  call EvSetupKvStore (setup_kv_store W);;
  call (EvInitDistributed (Args.backend args) rank world_size)
       (init_distributed W (Args.backend args) rank world_size).

(** The example world with a third training step that raises. *)
Definition failing_step_world : world := {|
  py_int := decimal;
  json_loads := json_loads example_world;
  RendezvousParameters := λ _, Ok tt;
  create_rdzv_handler := λ _, Ok tt;
  setup_kv_store := Ok tt;
  init_distributed := λ _ _ _, Ok tt;
  nn_modules := λ _ _ _ _, Ok tt;
  get_global_decision := Ok example_decision;
  PipeDataParallelTopology := λ _ _ _, Ok tt;
  PipelineModule := λ _, Ok tt;
  random_seed := λ _, Ok tt;
  DummyDataset := λ _ _, Ok tt;
  initialize := λ _ _, Ok 0;
  train_batch := λ i _ _,
    if bool_decide (i = 2%nat) then Raise (Other "RuntimeError") else Ok tt;
|}.

(** ** [project_pactum/experiment/imagenet_pretrain.py] *)

Module Pretrain.

(** *** Python strings *)

(** [sep.join(l)] *)
Fixpoint join (sep : string) (l : list string) : string :=
  match l with
  | [] => ""
  | x :: l' =>
      match l' with
      | [] => x
      | _ => x +:+ sep +:+ join sep l'
      end
  end.

(** [str(n)] for an int: the decimal numeral, with a minus sign below
    zero. *)
Definition str (n : Z) : string := pretty n.

Fixpoint startswith (p s : string) : bool :=
  match p, s with
  | EmptyString, _ => true
  | String a p', String b s' => bool_decide (a = b) && startswith p' s'
  | String _ _, EmptyString => false
  end.

(** [p in s] for strings. *)
Fixpoint contains (p s : string) : bool :=
  startswith p s
  || match s with
     | EmptyString => false
     | String _ s' => contains p s'
     end.

Fixpoint endswith_char (c : ascii) (s : string) : bool :=
  match s with
  | EmptyString => false
  | String a EmptyString => bool_decide (a = c)
  | String _ s' => endswith_char c s'
  end.

(** [os.path.join(a, *p)] of [posixpath]: a component that starts with a
    slash restarts the path; otherwise it is appended, after a slash unless
    the path is empty or ends with one. *)
Definition path_join (a : string) (p : list string) : string :=
  foldl (λ path b,
           if startswith "/" b then b
           else if bool_decide (path = "") || endswith_char "/" path
                then path +:+ b
                else path +:+ "/" +:+ b)
        a p.

(** The character [c] occurs in [s]. *)
Fixpoint has_char (c : ascii) (s : string) : bool :=
  match s with
  | EmptyString => false
  | String a s' => bool_decide (a = c) || has_char c s'
  end.

(** *** Exceptions *)

(** An exception as [run] tells them apart: an instance of [Exception],
    with what [str] gives for it, or one outside of [Exception]
    ([KeyboardInterrupt], [SystemExit]), which [except Exception] lets
    through. *)
Inductive raised : Type :=
| Exception (message : string)
| BaseOnly (name : string).

Inductive outcome (A : Type) : Type :=
| Returns (a : A)
| Raises (e : raised).
Global Arguments Returns {A} a.
Global Arguments Raises {A} e.

Global Instance outcome_ret : MRet outcome := λ A a, Returns a.
Global Instance outcome_bind : MBind outcome := λ A B k r,
  match r with
  | Returns a => k a
  | Raises e => Raises e
  end.

(** *** The cloud *)

(** The fields of [options] that the module reads. *)
Record Options : Type := {
  cluster_size : Z;
  ngpus : Z;
  epochs : Z;
  instance_type : string;
  az : string;
}.

(** Which object a method is called on: the NFS server, or the worker at
    an index of [instances]. *)
Inductive target : Type :=
| NfsServer
| Worker (k : nat).

(** The external calls and the printed lines of a run. *)
Inductive action : Type :=
| Print (line : string)
| Boto3Client
| NewInstance (id : string)
| StartInstance (t : target)
| InitFromId (t : target)
| WaitForSsh (t : target)
| SshCommand (t : target) (command : string)
| CreateInstance (cluster_size : Z) (instance_type az ami : string)
| Sleep (seconds : Z)
| TerminateInstances (ids : list string).

(** The collaborators outside of the module: the [Instance] class, boto3,
    [create_instance] and [time.sleep].  An [Instance] object is whatever
    the class keeps; a method takes the object to the object it leaves
    behind and returns or raises. *)
Record cloud : Type := {
  instance : Type;
  ec2_instance : Type;
  completed : Type;
  inst_id : instance → string;
  inst_private_ip : instance → string;
  ec2_id : ec2_instance → string;
  boto3_client : nat → outcome unit;
  new_Instance : string → outcome instance;
  start : instance → instance * outcome unit;
  init_from_id : instance → instance * outcome unit;
  wait_for_ssh : instance → instance * outcome unit;
  ssh_command : instance → string → instance * outcome completed;
  stdout_decode : completed → outcome string;
  create_instance : Z → string → string → string
                    → outcome (list ec2_instance);
  sleep : Z → outcome unit;
  terminate_instances : list string → outcome unit;
}.

Definition NFSID : string := "i-01ed34ecd79d8d980".

(** A computation that makes calls and returns or raises. *)
Definition io (A : Type) : Type := (list action * outcome A)%type.

Global Instance io_ret : MRet io := λ A a, ([], Returns a).
Global Instance io_bind : MBind io := λ A B k m,
  match m with
  | (t, Returns a) => let '(t', r) := k a in (t ++ t', r)
  | (t, Raises e) => (t, Raises e)
  end.

Definition emit (a : action) : io unit := ([a], Returns tt).

Definition ext {A} (a : action) (r : outcome A) : io A := ([a], r).

(** A method call on an object held in a local variable: the variable
    names the object the method leaves behind. *)
Definition method {I} (a : action) (call : I * outcome unit) : io I :=
  ([a], match call.2 with
        | Returns _ => Returns call.1
        | Raises e => Raises e
        end).

Section functions.

Variable C : cloud.

(** [start_nfs_server], lines 14-21. *)
Definition start_nfs_server : io (instance C) :=
  emit (Print "Starting NFS server");;
  ext Boto3Client (boto3_client C 0);;
  nfs_server ← ext (NewInstance NFSID) (new_Instance C NFSID);
  nfs_server ← method (StartInstance NfsServer) (start C nfs_server);
  nfs_server ← method (InitFromId NfsServer) (init_from_id C nfs_server);
  nfs_server ← method (WaitForSsh NfsServer) (wait_for_ssh C nfs_server);
  mret nfs_server.

(** [get_horovod_options], lines 23-29. *)
Definition get_horovod_options (options : Options)
    (instances : list (instance C)) : Z * string :=
  let np := cluster_size options * ngpus options in
  let cluster_conf :=
    join "," ((λ inst, join ":" [inst_private_ip C inst;
                                 str (ngpus options)])
              <$> instances) in
  (np, cluster_conf).

(** [construct_run_cmd], lines 31-38. *)
Definition construct_run_cmd (options : Options) (log_dir : string)
    (instances : list (instance C)) : string :=
  let '(np, horovod_cluster_str) := get_horovod_options options instances in
  join " " [ "cd horovod-examples/pytorch;";
             ". .venv/bin/activate;"; "nohup horovodrun -np"; str np; "-H";
             horovod_cluster_str;
             "python pytorch_imagenet_resnet50.py --epochs";
             str (epochs options);
             "> " +:+ log_dir +:+ "/output.txt" ].

(** The body of [run] after [instances] is bound to the [Instance]
    objects: it reads and updates the objects of that list. *)
Definition st (A : Type) : Type :=
  list (instance C) → list action * list (instance C) * outcome A.

Definition st_ret {A} (a : A) : st A := λ insts, ([], insts, Returns a).

Definition st_bind {A B} (m : st A) (k : A → st B) : st B := λ insts,
  match m insts with
  | (t, insts', Returns a) =>
      let '(t', insts'', r) := k a insts' in (t ++ t', insts'', r)
  | (t, insts', Raises e) => (t, insts', Raises e)
  end.

Definition st_print (line : string) : st unit := λ insts,
  ([Print line], insts, Returns tt).

(** [for inst in instances: body]: the objects are visited in order, each
    left as the body leaves it; the loop ends at the first exception. *)
Fixpoint for_each
    (body : nat → instance C → list action * instance C * outcome unit)
    (k : nat) (insts : list (instance C))
  : list action * list (instance C) * outcome unit :=
  match insts with
  | [] => ([], [], Returns tt)
  | inst :: rest =>
      match body k inst with
      | (t, inst', Returns _) =>
          let '(t', rest', r) := for_each body (S k) rest in
          (t ++ t', inst' :: rest', r)
      | (t, inst', Raises e) => (t, inst' :: rest, Raises e)
      end
  end.

(** Lines 56-57 *)
Definition init_body (k : nat) (inst : instance C)
  : list action * instance C * outcome unit :=
  ([InitFromId (Worker k)], (init_from_id C inst).1, (init_from_id C inst).2).

(** Lines 60-61 *)
Definition wait_body (k : nat) (inst : instance C)
  : list action * instance C * outcome unit :=
  ([WaitForSsh (Worker k)], (wait_for_ssh C inst).1, (wait_for_ssh C inst).2).

(** What the loop of lines 64-67 raises for an instance. *)
Definition no_nfs_volume (id : string) : raised :=
  Exception ("No NFS volume found on instance " +:+ id
             +:+ ". Make sure NFS server is running").

(** Lines 64-67 *)
Definition nfs_body (k : nat) (inst : instance C)
  : list action * instance C * outcome unit :=
  let called := ssh_command C inst "nfsiostat" in
  ([SshCommand (Worker k) "nfsiostat"], called.1,
   out ← (p ← called.2; stdout_decode C p);
   if contains "No NFS mount" out
   then Raises (no_nfs_volume (inst_id C called.1))
   else Returns tt).

(** An instance that answers [nfsiostat] with an output, readable as
    UTF-8, that does not report a missing mount. *)
Definition nfs_mounted (inst : instance C) : Prop :=
  ∃ p out, (ssh_command C inst "nfsiostat").2 = Returns p
    ∧ stdout_decode C p = Returns out
    ∧ contains "No NFS mount" out = false.

(** [leader = instances[0]]: the first object, which stays in the list. *)
Definition leader_exists : st unit := λ insts,
  match insts with
  | [] => ([], insts, Raises (Exception "list index out of range"))
  | _ :: _ => ([], insts, Returns tt)
  end.

(** [leader.ssh_command(command)] *)
Definition leader_ssh (command : string) : st unit := λ insts,
  match insts with
  | [] => ([], insts, Raises (Exception "list index out of range"))
  | leader :: rest =>
      let called := ssh_command C leader command in
      ([SshCommand (Worker 0) command], called.1 :: rest,
       called.2 ≫= λ _, Returns tt)
  end.

(** [create_log_folder], lines 40-44. *)
Definition create_log_folder : st string :=
  let log_dir := path_join "~" ["experiment"; "imagenet-pretrain"] in
  st_bind (leader_ssh ("mkdir -p " +:+ log_dir)) (λ _, st_ret log_dir).

(** Lines 56-76: the rest of the [try] block. *)
Definition with_instances (options : Options) : st unit :=
  st_bind (for_each init_body 0) (λ _,
  st_bind (st_print "Waiting for SSH connections to all instances") (λ _,
  st_bind (for_each wait_body 0) (λ _,
  st_bind (st_print
    "Checking to make sure every server can access the NFS drive") (λ _,
  st_bind (for_each nfs_body 0) (λ _,
  st_bind leader_exists (λ _,
  st_bind create_log_folder (λ log_dir,
  st_bind (λ insts,
             ([], insts, Returns (construct_run_cmd options log_dir insts)))
          (λ horovod_run_cmd,
  st_bind (st_print "Running imagenet") (λ _,
  leader_ssh horovod_run_cmd))))))))).

(** [[Instance(i.id) for i in instances]], line 55. *)
Fixpoint new_instances (l : list (ec2_instance C))
  : io (list (instance C)) :=
  match l with
  | [] => mret []
  | i :: l' =>
      inst ← ext (NewInstance (ec2_id C i)) (new_Instance C (ec2_id C i));
      insts ← new_instances l';
      mret (inst :: insts)
  end.

(** What [instances] names when the [try] block is left: the list that
    [create_instance] returned, or the [Instance] objects. *)
Definition bound_ids (bound : list (ec2_instance C) + list (instance C))
  : list string :=
  match bound with
  | inl l => ec2_id C <$> l
  | inr l => inst_id C <$> l
  end.

(** Lines 53-76: the [try] block, with what [instances] names at its
    end. *)
Definition try_block (options : Options) (instances : list (ec2_instance C))
  : list action * (list (ec2_instance C) + list (instance C))
    * outcome unit :=
  match sleep C 5 with
  | Raises e => ([Sleep 5], inl instances, Raises e)
  | Returns _ =>
      match new_instances instances with
      | (t, Raises e) => (Sleep 5 :: t, inl instances, Raises e)
      | (t, Returns insts) =>
          let '(t', insts', r) := with_instances options insts in
          (Sleep 5 :: t ++ t', inr insts', r)
      end
  end.

(** Lines 78-79: [except Exception as e]. *)
Definition except_Exception (r : outcome unit) : io unit :=
  match r with
  | Raises (Exception message) =>
      ([Print ("[ERROR] " +:+ message)], Returns tt)
  | _ => ([], r)
  end.

(** Lines 80-83: the [finally] block. *)
Definition finally_block (ids : list string) : io unit :=
  emit (Print "Terminating instances");;
  ext Boto3Client (boto3_client C 1);;
  ext (TerminateInstances ids) (terminate_instances C ids).

(** [run], lines 46-85. *)
Definition run (options : Options) : io unit :=
  nfs_server ← start_nfs_server;
  emit (Print "Allocating spot instances for workers");;
  instances ← ext (CreateInstance (cluster_size options)
                     (instance_type options) (az options)
                     "ami-072de7bde5a141b93")
                  (create_instance C (cluster_size options)
                     (instance_type options) (az options)
                     "ami-072de7bde5a141b93");
  let '(t, bound, r) := try_block options instances in
  let handled := except_Exception r in
  let cleanup := finally_block (bound_ids bound) in
  (t ++ handled.1 ++ cleanup.1,
   match cleanup.2 with
   | Raises e => Raises e
   | Returns _ => handled.2
   end).

End functions.

(** The calls and lines of [start_nfs_server]. *)
Definition is_nfs_server_action (a : action) : bool :=
  match a with
  | Print _ | Boto3Client | NewInstance _
  | StartInstance NfsServer | InitFromId NfsServer
  | WaitForSsh NfsServer => true
  | _ => false
  end.

Definition is_terminate (a : action) : bool :=
  match a with TerminateInstances _ => true | _ => false end.

(** *** A cloud to run in

    Instances are an id and an address, given by [init_from_id]; every
    call returns; [nfsiostat] prints the given output on every instance. *)
Definition example_cloud (nfsiostat_output : string) : cloud := {|
  instance := string * string;
  ec2_instance := string;
  completed := string;
  inst_id := fst;
  inst_private_ip := snd;
  ec2_id := id;
  boto3_client := λ _, Returns tt;
  new_Instance := λ i, Returns (i, "");
  start := λ inst, (inst, Returns tt);
  init_from_id := λ inst, ((inst.1, "10.0.0." +:+ inst.1), Returns tt);
  wait_for_ssh := λ inst, (inst, Returns tt);
  ssh_command := λ inst command,
    (inst, Returns (if bool_decide (command = "nfsiostat")
                    then nfsiostat_output else ""));
  stdout_decode := λ out, Returns out;
  create_instance := λ n _ _ _, Returns (pretty <$> seq 1 (Z.to_nat n));
  sleep := λ _, Returns tt;
  terminate_instances := λ _, Returns tt;
|}.

Definition example_options (cluster_size : Z) : Options := {|
  cluster_size := cluster_size;
  ngpus := 4;
  epochs := 90;
  instance_type := "p3.8xlarge";
  az := "us-east-1a";
|}.

(** The example cloud with a [time.sleep] that is interrupted. *)
Definition interrupted_cloud : cloud := {|
  instance := string * string;
  ec2_instance := string;
  completed := string;
  inst_id := fst;
  inst_private_ip := snd;
  ec2_id := id;
  boto3_client := λ _, Returns tt;
  new_Instance := λ i, Returns (i, "");
  start := λ inst, (inst, Returns tt);
  init_from_id := λ inst, ((inst.1, "10.0.0." +:+ inst.1), Returns tt);
  wait_for_ssh := λ inst, (inst, Returns tt);
  ssh_command := λ inst command, (inst, Returns "");
  stdout_decode := λ out, Returns out;
  create_instance := λ n _ _ _, Returns (pretty <$> seq 1 (Z.to_nat n));
  sleep := λ _, Raises (BaseOnly "KeyboardInterrupt");
  terminate_instances := λ _, Returns tt;
|}.

(** The example cloud with no capacity for the instances. *)
Definition no_capacity_cloud : cloud := {|
  instance := string * string;
  ec2_instance := string;
  completed := string;
  inst_id := fst;
  inst_private_ip := snd;
  ec2_id := id;
  boto3_client := λ _, Returns tt;
  new_Instance := λ i, Returns (i, "");
  start := λ inst, (inst, Returns tt);
  init_from_id := λ inst, ((inst.1, "10.0.0." +:+ inst.1), Returns tt);
  wait_for_ssh := λ inst, (inst, Returns tt);
  ssh_command := λ inst command, (inst, Returns "");
  stdout_decode := λ out, Returns out;
  create_instance := λ _ _ _ _,
    Raises (Exception "InsufficientInstanceCapacity");
  sleep := λ _, Returns tt;
  terminate_instances := λ _, Returns tt;
|}.

End Pretrain.

(** * Properties *)

(** ** Lemmas on sums and boundaries *)

Section sums.

Lemma foldl_add_shift (l : list Z) (a : Z) :
  foldl Z.add a l = a + foldl Z.add 0 l.
Proof.
  revert a. induction l as [|x l IH]; intros a; simpl; [lia|].
  rewrite (IH (a + x)), (IH (0 + x)). lia.
Qed.

Lemma sum_nil : Py.sum [] = 0.
Proof. reflexivity. Qed.

Lemma sum_cons (x : Z) (l : list Z) : Py.sum (x :: l) = x + Py.sum l.
Proof. unfold Py.sum. simpl. rewrite foldl_add_shift. lia. Qed.

Lemma sum_app (l k : list Z) : Py.sum (l ++ k) = Py.sum l + Py.sum k.
Proof.
  induction l as [|x l IH]; simpl; [rewrite sum_nil; lia|].
  rewrite !sum_cons, IH. lia.
Qed.

Lemma sum_take_S (l : list Z) (i : nat) (p : Z) :
  l !! i = Some p → Py.sum (take (S i) l) = Py.sum (take i l) + p.
Proof.
  intros Hi. rewrite (take_S_r l i p Hi), sum_app, sum_cons, sum_nil. lia.
Qed.

Lemma sum_nonneg (l : list Z) : Forall (λ s, 0 ≤ s) l → 0 ≤ Py.sum l.
Proof.
  induction 1 as [|x l Hx _ IH]; [rewrite sum_nil; lia|].
  rewrite sum_cons. lia.
Qed.

Lemma sum_insert (l : list Z) (i : nat) (p q : Z) :
  l !! i = Some p → Py.sum (<[i := q]> l) = Py.sum l - p + q.
Proof.
  revert i. induction l as [|x l IH]; intros [|i] Hi; simplify_eq/=.
  - rewrite !sum_cons. lia.
  - rewrite !sum_cons, (IH i Hi). lia.
Qed.

(** Entry [j] of [boundaries parts] is the sum of the first [j] parts. *)
Lemma boundaries_lookup (parts : list Z) (j : nat) :
  (j ≤ length parts)%nat →
  boundaries parts !! j = Some (Py.sum (take j parts)).
Proof.
  intros Hj. destruct j as [|j]; [reflexivity|].
  unfold boundaries. simpl. rewrite list_lookup_imap.
  destruct (lookup_lt_is_Some_2 parts j) as [p Hp]; [lia|].
  rewrite Hp. simpl. by rewrite (sum_take_S _ _ _ Hp).
Qed.

Lemma boundaries_length (parts : list Z) :
  length (boundaries parts) = S (length parts).
Proof. unfold boundaries. simpl. by rewrite length_imap. Qed.

End sums.

(** ** The custom partition *)

Section custom.

Lemma widen_last_Some (sizes : list Z) (p : Z) :
  last sizes = Some p →
  widen_last sizes = Ok (<[pred (length sizes) := p + 2]> sizes).
Proof. unfold widen_last. rewrite last_lookup. by intros ->. Qed.

Lemma widen_last_nil : widen_last [] = Raise IndexError.
Proof. reflexivity. Qed.

Lemma custom_partitions_mismatch (N : Z) (sizes : list Z) :
  Py.sum sizes ≠ N → custom_partitions N sizes = Raise AssertionError.
Proof.
  intros Hne. unfold custom_partitions.
  by rewrite (bool_decide_eq_false_2 _ Hne).
Qed.

Lemma custom_partitions_Ok (N : Z) (sizes : list Z) (p : Z) :
  Py.sum sizes = N → last sizes = Some p →
  custom_partitions N sizes
  = Ok (boundaries (<[pred (length sizes) := p + 2]> sizes)).
Proof.
  intros Hsum Hlast. unfold custom_partitions.
  rewrite (bool_decide_eq_true_2 _ Hsum). simpl.
  by rewrite (widen_last_Some _ _ Hlast).
Qed.

(** A result of [custom_partitions] comes from a non-empty list of the
    right sum. *)
Lemma custom_partitions_inv (N : Z) (sizes bs : list Z) :
  custom_partitions N sizes = Ok bs →
  Py.sum sizes = N ∧ ∃ p, last sizes = Some p
    ∧ bs = boundaries (<[pred (length sizes) := p + 2]> sizes).
Proof.
  unfold custom_partitions. intros Hok.
  destruct (decide (Py.sum sizes = N)) as [Hsum|Hne].
  - rewrite (bool_decide_eq_true_2 _ Hsum) in Hok. simpl in Hok.
    split; [done|]. destruct (last sizes) as [p|] eqn:Hlast.
    + exists p. split; [done|].
      rewrite (widen_last_Some _ _ Hlast) in Hok. simpl in Hok. congruence.
    + apply last_None in Hlast. subst sizes. discriminate.
  - rewrite (bool_decide_eq_false_2 _ Hne) in Hok. discriminate.
Qed.

(** The boundaries in terms of the sizes the caller gave: prefix sums up
    to the last boundary, which lies 2 beyond the total. *)
Lemma widened_boundaries (sizes : list Z) (p : Z) :
  last sizes = Some p →
  let bs := boundaries (<[pred (length sizes) := p + 2]> sizes) in
  length bs = S (length sizes)
  ∧ (∀ j, (j < length sizes)%nat → bs !! j = Some (Py.sum (take j sizes)))
  ∧ bs !! length sizes = Some (Py.sum sizes + 2).
Proof.
  intros Hlast bs. subst bs. rewrite last_lookup in Hlast.
  split; [by rewrite boundaries_length, length_insert|]. split.
  - intros j Hj. rewrite boundaries_lookup by (rewrite length_insert; lia).
    by rewrite take_insert_ge; [|lia].
  - rewrite boundaries_lookup by (rewrite length_insert; lia).
    rewrite take_ge by (rewrite length_insert; lia).
    rewrite (sum_insert _ _ _ _ Hlast). f_equal. lia.
Qed.

End custom.

Section custom_claims.

Lemma boundaries_mono (parts : list Z) (j : nat) (a b : Z) :
  Forall (λ s, 0 ≤ s) parts →
  boundaries parts !! j = Some a → boundaries parts !! S j = Some b → a ≤ b.
Proof.
  intros Hpos Ha Hb.
  assert (S j ≤ length parts)%nat as Hj.
  { apply lookup_lt_Some in Hb. rewrite boundaries_length in Hb. lia. }
  rewrite boundaries_lookup in Ha by lia.
  rewrite boundaries_lookup in Hb by lia.
  destruct (lookup_lt_is_Some_2 parts j) as [p Hp]; [lia|].
  rewrite (sum_take_S _ _ _ Hp) in Hb.
  assert (0 ≤ p) by (by eapply (Forall_lookup_1 _ parts j p)).
  simplify_eq. lia.
Qed.

(** Between the first and the last entry of a list of boundaries, every
    index falls in some stage. *)
Lemma boundaries_locate (bs : list Z) (a b k : Z) :
  head bs = Some a → last bs = Some b → a ≤ k < b →
  ∃ j x y, bs !! j = Some x ∧ bs !! S j = Some y ∧ x ≤ k < y.
Proof.
  revert a. induction bs as [|x bs IH]; intros a Hhd Hlast Hk; [done|].
  simpl in Hhd. simplify_eq. destruct bs as [|y bs].
  - simpl in Hlast. simplify_eq. lia.
  - destruct (decide (k < y)) as [Hlt|Hge].
    + exists 0%nat, a, y. simpl. repeat split; [lia|done].
    + destruct (IH y) as (j & x' & y' & Hx & Hy & Hin); [done|done|lia|].
      exists (S j), x', y'. simpl. split; [done|]. split; [done|lia].
Qed.

Lemma layers_length (N : Z) : length (layers N) = (Z.to_nat N + 2)%nat.
Proof.
  unfold layers, clones. by rewrite length_app, length_fmap, length_seq.
Qed.

Lemma layers_trailing (N : Z) :
  layers N !! Z.to_nat N = Some FinalNorm
  ∧ layers N !! S (Z.to_nat N) = Some SumLast.
Proof.
  assert (length (clones N) = Z.to_nat N) as Hlen.
  { unfold clones. by rewrite length_fmap, length_seq. }
  unfold layers. split.
  - rewrite lookup_app_r by lia. by rewrite Hlen, Nat.sub_diag.
  - rewrite lookup_app_r by lia.
    by replace (S (Z.to_nat N) - length (clones N))%nat with 1%nat by lia.
Qed.

Lemma layers_encoder (N : Z) (k : nat) :
  (k < Z.to_nat N)%nat → layers N !! k = Some (EncoderLayer k).
Proof.
  intros Hk. unfold layers, clones.
  rewrite lookup_app_l by (by rewrite length_fmap, length_seq).
  rewrite list_lookup_fmap, lookup_seq_lt by done. done.
Qed.

(** C2, as the code has it: for every custom size list of [P >= 1]
    positive integers summing to the layer count [N], the call succeeds
    with [P + 1] boundaries; boundary [j] is the sum of the first [j] sizes
    for every [j] below [P], and boundary [P] is the sum of all the sizes
    plus [2]. *)
Theorem custom_boundaries_prefix_sums (N : Z) (sizes : list Z) :
  sizes ≠ [] → Forall (λ s, 0 < s) sizes → Py.sum sizes = N →
  ∃ bs, custom_partitions N sizes = Ok bs
    ∧ length bs = S (length sizes)
    ∧ (∀ j, (j < length sizes)%nat →
         bs !! j = Some (Py.sum (take j sizes)))
    ∧ bs !! length sizes = Some (N + 2).
Proof.
  intros Hne _ Hsum.
  destruct (last sizes) as [p|] eqn:Hlast; [|by apply last_None in Hlast].
  exists (boundaries (<[pred (length sizes) := p + 2]> sizes)).
  split; [by apply custom_partitions_Ok|].
  destruct (widened_boundaries sizes p Hlast) as (Hlen & Hpre & Hend).
  rewrite Hsum in Hend. done.
Qed.

Lemma custom_boundaries_prefix_sums_witness :
  [1; 2; 2; 3] ≠ [] ∧ Forall (λ s, 0 < s) [1; 2; 2; 3]
  ∧ Py.sum [1; 2; 2; 3] = 8
  ∧ ∃ bs, custom_partitions 8 [1; 2; 2; 3] = Ok bs
      ∧ length bs = 5%nat
      ∧ (∀ j, (j < 4)%nat → bs !! j = Some (Py.sum (take j [1; 2; 2; 3])))
      ∧ bs !! 4%nat = Some (8 + 2).
Proof.
  assert ([1; 2; 2; 3] ≠ []) as Hne by discriminate.
  assert (Forall (λ s, 0 < s) [1; 2; 2; 3]) as Hpos
    by (repeat constructor; lia).
  repeat split; [exact Hne | exact Hpos |].
  exact (custom_boundaries_prefix_sums 8 [1; 2; 2; 3] Hne Hpos eq_refl).
Defined.

(** C2, as the spec words it, fails on sizes [1,2,2,3] for [N = 8]: the
    boundaries are [0,1,3,5,10], and the last one is not the sum [8] of the
    four sizes. *)
Lemma custom_boundaries_not_prefix_sums :
  Forall (λ s, 0 < s) [1; 2; 2; 3] ∧ Py.sum [1; 2; 2; 3] = 8
  ∧ custom_partitions 8 [1; 2; 2; 3] = Ok [0; 1; 3; 5; 10]
  ∧ ¬ boundaries_match_prefix_sums 8 [1; 2; 2; 3].
Proof.
  split; [repeat constructor; lia|]. split; [reflexivity|].
  split; [reflexivity|].
  intros (bs & Hbs & Hall). specialize (Hall 4%nat (le_n _)).
  vm_compute in Hbs. vm_compute in Hall. simplify_eq.
Qed.

Lemma boundaries_nondecreasing (parts : list Z) :
  nondecreasing (boundaries parts) ↔ Forall (λ s, 0 ≤ s) parts.
Proof.
  split.
  - intros Hmono. apply Forall_lookup. intros j p Hp.
    assert (j < length parts)%nat as Hj by (by eapply lookup_lt_Some).
    specialize (Hmono j (Py.sum (take j parts)) (Py.sum (take (S j) parts))).
    rewrite (sum_take_S _ _ _ Hp) in Hmono.
    assert (Py.sum (take j parts) ≤ Py.sum (take j parts) + p); [|lia].
    apply Hmono.
    + apply boundaries_lookup. lia.
    + rewrite boundaries_lookup by lia. by rewrite (sum_take_S _ _ _ Hp).
  - intros Hpos j a b. by apply boundaries_mono.
Qed.

(** C3, as the code has it: for [P >= 1] sizes summing to [N] the
    boundaries are produced and the last stage is wider than the size the
    caller gave for it by [2], the number of steps appended after the
    encoder layers and left out of [N]: the final norm, which holds
    parameters, and the sum, which holds none.  The last stage ends where
    the layer list ends exactly when [N] is not negative, and the two steps
    lie in it exactly when, besides, the caller's last size is not
    negative. *)
Theorem last_stage_widened (N : Z) (sizes : list Z) :
  sizes ≠ [] → Py.sum sizes = N →
  ∃ bs p lo hi,
    custom_partitions N sizes = Ok bs
    ∧ last sizes = Some p
    ∧ bs !! pred (length sizes) = Some lo
    ∧ bs !! length sizes = Some hi
    ∧ last bs = Some hi
    ∧ hi - lo = p + trailing_steps
    ∧ lo = N - p
    ∧ hi = N + trailing_steps
    ∧ trailing_steps = 2
    ∧ length (layers N) = (Z.to_nat N + 2)%nat
    ∧ layers N !! Z.to_nat N = Some FinalNorm
    ∧ has_parameters FinalNorm = true
    ∧ layers N !! S (Z.to_nat N) = Some SumLast
    ∧ has_parameters SumLast = false
    ∧ (Z.of_nat (length (layers N)) = hi ↔ 0 ≤ N)
    ∧ (lo ≤ Z.of_nat (Z.to_nat N) < hi
       ∧ lo ≤ Z.of_nat (S (Z.to_nat N)) < hi
       ↔ 0 ≤ p ∧ 0 ≤ N).
Proof.
  intros Hne Hsum.
  destruct (last sizes) as [p|] eqn:Hlast; [|by apply last_None in Hlast].
  destruct (widened_boundaries sizes p Hlast) as (Hlen & Hpre & Hend).
  assert (0 < length sizes)%nat as Hpos by (destruct sizes; [done|simpl; lia]).
  assert (Py.sum (take (pred (length sizes)) sizes) = Py.sum sizes - p) as Hlo.
  { rewrite last_lookup in Hlast.
    pose proof (sum_take_S _ _ _ Hlast) as HS.
    replace (S (pred (length sizes))) with (length sizes) in HS by lia.
    rewrite firstn_all in HS. lia. }
  exists (boundaries (<[pred (length sizes) := p + 2]> sizes)),
    p, (N - p), (N + 2).
  split; [by apply custom_partitions_Ok|]. split; [done|].
  split; [rewrite Hpre by lia; by rewrite Hlo, Hsum|].
  split; [by rewrite Hend, Hsum|].
  split; [rewrite last_lookup, Hlen; simpl; by rewrite Hend, Hsum|].
  unfold trailing_steps. simpl length.
  split; [lia|]. split; [done|]. split; [done|]. split; [done|].
  split; [apply layers_length|].
  destruct (layers_trailing N) as [Hnorm Hsumlast].
  split; [done|]. split; [done|]. split; [done|]. split; [done|].
  rewrite layers_length. split; lia.
Qed.

Lemma last_stage_widened_witness :
  [1; 2; 2; 3] ≠ [] ∧ Py.sum [1; 2; 2; 3] = 8
  ∧ ∃ bs p lo hi,
      custom_partitions 8 [1; 2; 2; 3] = Ok bs
      ∧ last [1; 2; 2; 3] = Some p
      ∧ bs !! 3%nat = Some lo
      ∧ bs !! 4%nat = Some hi
      ∧ hi - lo = p + trailing_steps.
Proof.
  assert ([1; 2; 2; 3] ≠ []) as Hne by discriminate.
  split; [exact Hne|]. split; [reflexivity|].
  destruct (last_stage_widened 8 [1; 2; 2; 3] Hne eq_refl)
    as (bs & p & lo & hi & Hbs & Hp & Hlo & Hhi & _ & Hw & _).
  exists bs, p, lo, hi. exact (conj Hbs (conj Hp (conj Hlo (conj Hhi Hw)))).
Defined.

(** C3, as the spec words it, fails on the code.  For sizes [1,2,2,3] and
    [N = 8] the first step after the counted layers is the final norm,
    which holds the parameters [a_2] and [b_2].  For sizes [9,-1], which
    sum to [8] as well, the boundaries are [0,9,10] and the norm, at index
    [8], lies in the first stage, not in the last. *)
Lemma last_stage_tail_not_unparameterized :
  Py.sum [1; 2; 2; 3] = 8
  ∧ custom_partitions 8 [1; 2; 2; 3] = Ok [0; 1; 3; 5; 10]
  ∧ layers 8 !! 8%nat = Some FinalNorm
  ∧ has_parameters FinalNorm = true
  ∧ ¬ last_stage_covers_unparameterized_tail 8 [1; 2; 2; 3]
  ∧ Py.sum [9; -1] = 8
  ∧ custom_partitions 8 [9; -1] = Ok [0; 9; 10]
  ∧ ¬ last_stage_covers_unparameterized_tail 8 [9; -1].
Proof.
  split; [reflexivity|]. split; [reflexivity|]. split; [reflexivity|].
  split; [reflexivity|]. split; [|split; [reflexivity|split; [reflexivity|]]].
  - intros (bs & p & lo & hi & _ & _ & _ & _ & _ & Htail).
    destruct (Htail 8%nat FinalNorm eq_refl ltac:(simpl; lia)) as [Hpar _].
    discriminate Hpar.
  - intros (bs & p & lo & hi & Hbs & _ & Hlo & _ & _ & Htail).
    vm_compute in Hbs. injection Hbs as <-. vm_compute in Hlo.
    injection Hlo as <-.
    destruct (Htail 9%nat SumLast eq_refl ltac:(simpl; lia)) as [_ Hin].
    destruct (Htail 8%nat FinalNorm eq_refl ltac:(simpl; lia)) as [_ Hin'].
    simpl in Hin'. lia.
Qed.

(** C10, as the code has it: with [P >= 1] sizes summing to [N] there are
    [P + 1] boundaries, the first is [0] and the last is [N + 2].  They
    never decrease exactly when every size but the last is at least [0] and
    the last at least [-2], so in particular when no size is negative.
    [N + 2] is the length of the layer list given to the pipeline exactly
    when [N] is not negative, and then every element of that list lies in a
    stage. *)
Theorem custom_boundaries_cover_layers (N : Z) (sizes : list Z) :
  sizes ≠ [] → Py.sum sizes = N →
  ∃ bs, custom_partitions N sizes = Ok bs
    ∧ length bs = S (length sizes)
    ∧ bs !! 0%nat = Some 0
    ∧ last bs = Some (N + 2)
    ∧ (nondecreasing bs
       ↔ ∀ j s, sizes !! j = Some s →
           if decide (S j = length sizes) then -2 ≤ s else 0 ≤ s)
    ∧ (Forall (λ s, 0 ≤ s) sizes → nondecreasing bs)
    ∧ (Z.of_nat (length (layers N)) = N + 2 ↔ 0 ≤ N)
    ∧ (0 ≤ N →
       ∀ k, (k < length (layers N))%nat →
         ∃ j a b, (j < length sizes)%nat ∧ bs !! j = Some a
           ∧ bs !! S j = Some b ∧ a ≤ Z.of_nat k < b).
Proof.
  intros Hne Hsum.
  destruct (last sizes) as [p|] eqn:Hlast; [|by apply last_None in Hlast].
  set (w := <[pred (length sizes) := p + 2]> sizes).
  exists (boundaries w).
  destruct (widened_boundaries sizes p Hlast) as (Hlen & Hpre & Hend).
  fold w in Hlen, Hpre, Hend.
  assert (0 < length sizes)%nat as Hpos by (destruct sizes; [done|simpl; lia]).
  assert (last (boundaries w) = Some (N + 2)) as Hlastb.
  { rewrite last_lookup, Hlen. simpl. by rewrite Hend, Hsum. }
  assert (Forall (λ s, 0 ≤ s) w
          ↔ ∀ j s, sizes !! j = Some s →
              if decide (S j = length sizes) then -2 ≤ s else 0 ≤ s) as Hw.
  { rewrite last_lookup in Hlast. rewrite Forall_lookup. unfold w. split.
    - intros Hall j s Hj.
      assert (j < length sizes)%nat by (by eapply lookup_lt_Some).
      case_decide as Hj'.
      + assert (j = pred (length sizes)) as -> by lia.
        assert (s = p) as -> by congruence.
        specialize (Hall (pred (length sizes)) (p + 2)).
        rewrite list_lookup_insert_eq in Hall by lia.
        specialize (Hall eq_refl). lia.
      + apply (Hall j s). rewrite list_lookup_insert_ne by lia. done.
    - intros Hall j s Hj.
      destruct (decide (j = pred (length sizes))) as [->|Hne'].
      + rewrite list_lookup_insert_eq in Hj by lia. simplify_eq.
        specialize (Hall (pred (length sizes)) p Hlast).
        rewrite decide_True in Hall by lia. lia.
      + rewrite list_lookup_insert_ne in Hj by done.
        assert (j < length sizes)%nat by (by eapply lookup_lt_Some).
        specialize (Hall j s Hj). rewrite decide_False in Hall by lia.
        done. }
  split; [by apply custom_partitions_Ok|]. split; [done|].
  split; [done|]. split; [done|].
  split; [by rewrite boundaries_nondecreasing|].
  split.
  { intros Hall. apply boundaries_nondecreasing, Hw. intros j s Hj.
    assert (0 ≤ s) by (by eapply (Forall_lookup_1 _ sizes j s)).
    case_decide; lia. }
  split; [rewrite layers_length; lia|].
  intros HN k Hk. rewrite layers_length in Hk.
  destruct (boundaries_locate (boundaries w) 0 (N + 2) (Z.of_nat k))
    as (j & a & b & Ha & Hb & Hin); [done|done|lia|].
  exists j, a, b. split; [|done].
  apply lookup_lt_Some in Hb. rewrite Hlen in Hb. lia.
Qed.

Lemma custom_boundaries_cover_layers_witness :
  [1; 2; 2; 3] ≠ [] ∧ Py.sum [1; 2; 2; 3] = 8
  ∧ ∃ bs, custom_partitions 8 [1; 2; 2; 3] = Ok bs
    ∧ length bs = 5%nat
    ∧ bs !! 0%nat = Some 0
    ∧ last bs = Some (8 + 2)
    ∧ nondecreasing bs.
Proof.
  assert ([1; 2; 2; 3] ≠ []) as Hne by discriminate.
  assert (Forall (λ s, 0 ≤ s) [1; 2; 2; 3]) as Hpos
    by (repeat constructor; lia).
  split; [exact Hne|]. split; [reflexivity|].
  destruct (custom_boundaries_cover_layers 8 [1; 2; 2; 3] Hne eq_refl)
    as (bs & Hbs & Hlen & H0 & Hlast & _ & Hmono & _).
  exists bs.
  exact (conj Hbs (conj Hlen (conj H0 (conj Hlast (Hmono Hpos))))).
Defined.

(** C10, as stated, fails on the code: the sizes [-1,9] sum to [8], the
    assertion passes, and the boundaries are [0,-1,10], which decrease from
    the first to the second. *)
Lemma custom_boundaries_decrease :
  Py.sum [-1; 9] = 8
  ∧ custom_partitions 8 [-1; 9] = Ok [0; -1; 10]
  ∧ ¬ nondecreasing [0; -1; 10]
  ∧ ¬ boundaries_cover_layers 8 [-1; 9].
Proof.
  split; [reflexivity|]. split; [reflexivity|].
  assert (¬ nondecreasing [0; -1; 10]) as Hdec.
  { intros Hmono. specialize (Hmono 0%nat 0 (-1) eq_refl eq_refl). lia. }
  split; [exact Hdec|].
  intros (bs & Hbs & _ & _ & Hmono & _).
  vm_compute in Hbs. injection Hbs as <-. by apply Hdec.
Qed.

End custom_claims.

(** ** The run of [test_encoder] *)

Lemma bind_trace {A B} (m : prog A) (k : A → prog B) (ev : event) :
  ev ∈ (m ≫= k).1 → ev ∈ m.1 ∨ ∃ a, m.2 = Ok a ∧ ev ∈ (k a).1.
Proof.
  destruct m as [t [a|e]]; unfold mbind, prog_bind; simpl.
  - destruct (k a) as [t' r] eqn:Hk. simpl. rewrite elem_of_app.
    intros [Hin|Hin]; [by left|]. right. exists a. by rewrite Hk.
  - by left.
Qed.

Lemma pure_trace {A} (r : result A) (ev : event) : ev ∈ (pure r).1 → False.
Proof. simpl. apply not_elem_of_nil. Qed.

Lemma call_trace {A} (e : event) (r : result A) (ev : event) :
  ev ∈ (call e r).1 → ev = e.
Proof. simpl. by rewrite list_elem_of_singleton. Qed.

Lemma ret_trace {A} (a : A) (ev : event) :
  ev ∈ (mret a : prog A).1 → False.
Proof. simpl. apply not_elem_of_nil. Qed.

(** Walks down the binds of a run to the call that made the event; the
    results of the steps before it are left as hypotheses. *)
Ltac trace_inv H :=
  repeat match type of H with
  | _ ∈ (_ ≫= _).1 =>
      let a := fresh "a" in let Ha := fresh "Ha" in
      apply bind_trace in H; destruct H as [H | (a & Ha & H)]
  | _ ∈ (pure _).1 => by apply pure_trace in H
  | _ ∈ (mret _).1 => by apply ret_trace in H
  | _ ∈ (call _ _).1 => apply call_trace in H
  end.

Lemma bind_Ok {A B} (m : prog A) (k : A → prog B) (t : list event) (b : B) :
  m ≫= k = (t, Ok b) →
  ∃ t1 a t2, m = (t1, Ok a) ∧ k a = (t2, Ok b) ∧ t = t1 ++ t2.
Proof.
  destruct m as [t1 [a|e]]; unfold mbind, prog_bind; [|done].
  destruct (k a) as [t2 r] eqn:Hk. intros ?; simplify_eq.
  by exists t1, a, t2.
Qed.

(** Splits a run that returned into the steps that returned. *)
Ltac ok_inv :=
  repeat match goal with
  | H : _ ≫= _ = (_, Ok _) |- _ =>
      apply bind_Ok in H as (? & ? & ? & ? & H & ?)
  end.

Section run.

Variable W : world.
Variable environ : gmap string string.

Lemma environ_get_Ok (key v : string) :
  environ_get environ key = Ok v → environ !! key = Some v.
Proof. unfold environ_get. destruct (environ !! key); naive_solver. Qed.

Lemma setitem_Ok (obj : json) (key : string) (v : json)
    (d' : gmap string json) :
  setitem obj key v = Ok d' → ∃ d, obj = JDict d ∧ d' = <[key := v]> d.
Proof. destruct obj; simpl; intros ?; simplify_eq. eauto. Qed.

Lemma keyword_call_Ok (b e r : string) (mn mx : Z)
    (cfg : gmap string json) (kw : rdzv_kwargs) :
  keyword_call b e r mn mx cfg = Ok kw → kw_configs kw = cfg.
Proof.
  unfold keyword_call. case_bool_decide; intros ?; simplify_eq. done.
Qed.

(** The two calls of lines 232-240 and what they are given. *)
Lemma rendezvous_trace (ev : event) :
  ev ∈ (rendezvous W environ).1 →
  ∃ kw blob d,
    (ev = EvRendezvousParameters kw ∨ ev = EvCreateRdzvHandler kw)
    ∧ environ !! "PROJECT_PACTUM_RDZV_CONFIGS"%string = Some blob
    ∧ json_loads W blob = Ok (JDict d)
    ∧ kw_configs kw = <["last_call_timeout"%string := JInt 1]> d.
Proof.
  unfold rendezvous. cbv zeta. intros Hin. trace_inv Hin.
  all: simpl in *.
  all: apply environ_get_Ok in Ha3.
  all: apply setitem_Ok in Ha5 as (d & -> & ->).
  all: apply keyword_call_Ok in Ha6.
  all: exists a6, a3, d; auto.
Qed.

(** Before the partition is computed no training call is made. *)
Lemma setup_trace (args : Args.t) (ev : event) :
  ev ∈ (setup W environ args).1 → is_training_event ev = false.
Proof.
  unfold setup, make_encoder. intros Hin. trace_inv Hin; subst; try done.
  apply rendezvous_trace in Hin as (kw & _ & _ & [-> | ->] & _); done.
Qed.

Lemma train_loop_trace (args : Args.t) (i count : nat) (ev : event) :
  ev ∈ (train_loop W args i count).1 →
  ev = EvTrainBatch (Args.debug args) (Args.mem_log args).
Proof.
  revert i. induction count as [|count IH]; intros i Hin;
    cbn [train_loop] in Hin.
  - by apply ret_trace in Hin.
  - trace_inv Hin; subst; [done|]. by apply (IH (S i)).
Qed.

(** Once the partition is computed every call is a training call. *)
Lemma train_trace (args : Args.t) (ls : list layer) (P : Z)
    (ps : list Z) (ev : event) :
  ev ∈ (train W args ls P ps).1 → is_training_event ev = true.
Proof.
  unfold train. cbv zeta. intros Hin. trace_inv Hin; subst; try done.
  by apply train_loop_trace in Hin as ->.
Qed.

(** The run is the setup, then the partition, then the training. *)
Lemma test_encoder_unfold (args : Args.t) (tr : list event)
    (ls : list layer) (D P : Z) :
  setup W environ args = (tr, Ok (ls, D, P)) →
  test_encoder W environ args
  = match partition_of_args W args with
    | Ok ps => (tr ++ (train W args ls P ps).1, (train W args ls P ps).2)
    | Raise e => (tr, Raise e)
    end.
Proof.
  intros Hsetup. unfold test_encoder. rewrite Hsetup.
  unfold mbind at 1. unfold prog_bind. unfold pure.
  destruct (partition_of_args W args) as [ps|e]; simpl.
  - by destruct (train W args ls P ps).
  - by rewrite app_nil_r.
Qed.

Lemma test_encoder_setup_raises (args : Args.t) (tr : list event)
    (e : exn) :
  setup W environ args = (tr, Raise e) →
  test_encoder W environ args = (tr, Raise e).
Proof. intros Hsetup. unfold test_encoder. by rewrite Hsetup. Qed.

(** An event of the run before the training calls is an event of the
    setup. *)
Lemma test_encoder_trace (args : Args.t) (ev : event) :
  ev ∈ (test_encoder W environ args).1 →
  ev ∈ (setup W environ args).1 ∨ is_training_event ev = true.
Proof.
  destruct (setup W environ args) as [tr [[[ls D] P]|e]] eqn:Hsetup.
  - rewrite (test_encoder_unfold _ _ _ _ _ Hsetup).
    destruct (partition_of_args W args) as [ps|e']; simpl; [|by left].
    rewrite elem_of_app. intros [Hin|Hin]; [by left|right].
    by apply train_trace in Hin.
  - rewrite (test_encoder_setup_raises _ _ _ Hsetup). by left.
Qed.

(** [split] never returns an empty list, so the sizes parsed from a
    non-empty [--parts] have a last element. *)
Lemma split_nonempty (sep : ascii) (s : string) : split sep s ≠ [].
Proof.
  destruct s as [|c s]; simpl; [done|].
  case_decide; [done|]. by destruct (split sep s).
Qed.

Lemma traverse_length {A B} (f : A → result B) (l : list A) (l' : list B) :
  traverse f l = Ok l' → length l' = length l.
Proof.
  revert l'. induction l as [|x l IH]; intros l' Hok; simpl in Hok.
  - by simplify_eq.
  - destruct (f x) as [y|]; [|done]. simpl in Hok.
    destruct (traverse f l) as [ys|]; [|done]. simpl in Hok. simplify_eq.
    simpl. by rewrite (IH ys).
Qed.

Lemma parsed_sizes_nonempty (args : Args.t) (sizes : list Z) :
  traverse (py_int W) (split "," (Args.parts args)) = Ok sizes →
  sizes ≠ [].
Proof.
  intros Hok%traverse_length Hnil. subst sizes.
  pose proof (split_nonempty "," (Args.parts args)) as Hne.
  by destruct (split "," (Args.parts args)).
Qed.

Lemma partition_of_args_custom (args : Args.t) (sizes : list Z) :
  truthy_str (Args.parts args) = true →
  traverse (py_int W) (split "," (Args.parts args)) = Ok sizes →
  partition_of_args W args = custom_partitions (Args.N args) sizes.
Proof. intros Ht Hp. unfold partition_of_args. by rewrite Ht, Hp. Qed.

Lemma setup_layers (args : Args.t) (tr : list event) (ls : list layer)
    (D P : Z) :
  setup W environ args = (tr, Ok (ls, D, P)) → ls = layers (Args.N args).
Proof.
  unfold setup, make_encoder. intros Hsetup.
  ok_inv. unfold mret, prog_ret in *. by simplify_eq.
Qed.

(** What the pipeline model is built from, lines 263-269: the layer list
    of line 250, whose length is [N + 2] for [N >= 0], and the boundaries
    of lines 257-262; the mode is custom exactly when [--parts] is given. *)
Lemma pipeline_module_args (args : Args.t) (a : pipeline_args) :
  EvPipelineModule a ∈ (test_encoder W environ args).1 →
  ∃ ps, partition_of_args W args = Ok ps
    ∧ pm_layers a = layers (Args.N args)
    ∧ pm_custom_partitions a = ps
    ∧ pm_partition_method a
      = (if truthy_str (Args.parts args) then custom else uniform).
Proof.
  intros Hin.
  destruct (setup W environ args) as [tr [[[ls D] P]|e]] eqn:Hsetup.
  - rewrite (test_encoder_unfold _ _ _ _ _ Hsetup) in Hin.
    apply setup_layers in Hsetup as Hls. subst ls.
    assert (∀ ev, ev ∈ tr → is_training_event ev = false) as Htr.
    { intros ev Hev. apply (setup_trace args). by rewrite Hsetup. }
    destruct (partition_of_args W args) as [ps|e'] eqn:Hps; simpl in Hin.
    + apply elem_of_app in Hin as [Hin|Hin]; [by apply Htr in Hin|].
      exists ps. split; [done|].
      unfold train in Hin. cbv zeta in Hin. trace_inv Hin; simplify_eq.
      * simpl. repeat split.
        unfold partition_of_args in Hps.
        destruct (truthy_str (Args.parts args)) eqn:Ht.
        -- destruct (traverse (py_int W) (split "," (Args.parts args)))
             as [sizes|] eqn:Hsizes; [|done]. simpl in Hps.
           apply custom_partitions_inv in Hps as (_ & p & _ & ->). done.
        -- by simplify_eq.
      * by apply train_loop_trace in Hin.
    + by apply Htr in Hin.
  - rewrite (test_encoder_setup_raises _ _ _ Hsetup) in Hin. simpl in Hin.
    assert (is_training_event (EvPipelineModule a) = false); [|done].
    apply (setup_trace args). by rewrite Hsetup.
Qed.

End run.

Section run_claims.



(** A setup that returned has set up the process group, made the encoder
    layers and built the topology. *)
Lemma setup_calls (W : world) (environ : gmap string string)
    (args : Args.t) (tr : list event) (ctx : list layer * Z * Z) :
  setup W environ args = (tr, Ok ctx) →
  EvMakeEncoder (Args.N args) (Args.d_model args) (Args.d_ff args)
    (Args.H args) ∈ tr
  ∧ (∃ rank world_size,
       EvInitDistributed (Args.backend args) rank world_size ∈ tr)
  ∧ (∃ decision, EvTopology ctx.2 ctx.1.2 decision ∈ tr).
Proof.
  unfold setup, make_encoder. intros Hsetup.
  ok_inv. unfold mret, prog_ret, call, pure in *. simplify_eq. simpl.
  split; [|split].
  - apply elem_of_app. right. do 2 right. left.
  - eexists _, _. apply elem_of_app. right. right. left.
  - eexists. apply elem_of_app. right. do 4 right. left.
Qed.

(** C4, as the code has it: when the sizes given on the command line do
    not sum to [N], the assertion of line 260 fails ([AssertionError], the
    partition-size mismatch, raised by each worker in its own process): no
    boundaries are produced, [test_encoder] raises, and the run stops with
    the calls of the setup only: the pipeline model is not built, the engine
    is not initialised and no training step runs.  The setup that came
    before has initialised the process group, made the encoder layers and
    built the topology. *)
Theorem partition_mismatch_fails_fast (W : world)
    (environ : gmap string string) (args : Args.t) (sizes : list Z) :
  truthy_str (Args.parts args) = true →
  traverse (py_int W) (split "," (Args.parts args)) = Ok sizes →
  Py.sum sizes ≠ Args.N args →
  custom_partitions (Args.N args) sizes = Raise AssertionError
  ∧ partition_of_args W args = Raise AssertionError
  ∧ (∀ tr ctx, setup W environ args = (tr, Ok ctx) →
       test_encoder W environ args = (tr, Raise AssertionError))
  ∧ (∃ e, (test_encoder W environ args).2 = Raise e)
  ∧ (test_encoder W environ args).1 = (setup W environ args).1
  ∧ Forall (λ ev, is_training_event ev = false)
      (test_encoder W environ args).1
  ∧ (∀ tr ctx, setup W environ args = (tr, Ok ctx) →
       EvMakeEncoder (Args.N args) (Args.d_model args) (Args.d_ff args)
         (Args.H args) ∈ (test_encoder W environ args).1
       ∧ (∃ rank world_size,
            EvInitDistributed (Args.backend args) rank world_size
              ∈ (test_encoder W environ args).1)
       ∧ (∃ decision,
            EvTopology ctx.2 ctx.1.2 decision
              ∈ (test_encoder W environ args).1)
       ∧ ¬ fails_before_model_state W environ args).
Proof.
  intros Ht Hparse Hsum.
  pose proof (custom_partitions_mismatch _ _ Hsum) as Hcustom.
  assert (partition_of_args W args = Raise AssertionError) as Hpart.
  { by rewrite (partition_of_args_custom W args sizes). }
  assert (∀ tr ctx, setup W environ args = (tr, Ok ctx) →
            test_encoder W environ args = (tr, Raise AssertionError)) as Hrun.
  { intros tr [[ls D] P] Hsetup.
    by rewrite (test_encoder_unfold _ _ _ _ _ _ _ Hsetup), Hpart. }
  assert ((test_encoder W environ args).1 = (setup W environ args).1
          ∧ ∃ e, (test_encoder W environ args).2 = Raise e) as [Htr He].
  { destruct (setup W environ args) as [tr [ctx|e]] eqn:Hsetup.
    - rewrite (Hrun tr ctx eq_refl). eauto.
    - rewrite (test_encoder_setup_raises _ _ _ _ _ Hsetup). eauto. }
  split; [done|]. split; [done|]. split; [done|]. split; [done|].
  split; [done|]. split.
  { rewrite Htr. apply Forall_forall. intros ev Hev.
    by apply setup_trace in Hev. }
  intros tr ctx Hsetup.
  destruct (setup_calls W environ args tr ctx Hsetup) as (Henc & Hpg & Htop).
  rewrite Htr, Hsetup. simpl.
  split; [done|]. split; [done|]. split; [done|].
  intros (_ & _ & Hnone). rewrite Htr, Hsetup in Hnone. simpl in Hnone.
  rewrite Forall_forall in Hnone. by apply Hnone in Henc.
Qed.

Lemma partition_mismatch_fails_fast_witness :
  truthy_str (Args.parts (example_args "1,2")) = true
  ∧ traverse decimal (split "," "1,2") = Ok [1; 2]
  ∧ Py.sum [1; 2] ≠ 8
  ∧ test_encoder example_world example_environ (example_args "1,2")
    = ((setup example_world example_environ (example_args "1,2")).1,
       Raise AssertionError).
Proof.
  assert (Py.sum [1; 2] ≠ 8) as Hne by (vm_compute; discriminate).
  split; [reflexivity|]. split; [reflexivity|]. split; [exact Hne|].
  destruct (partition_mismatch_fails_fast example_world example_environ
              (example_args "1,2") [1; 2] eq_refl eq_refl Hne)
    as (_ & _ & Hrun & _).
  destruct (setup example_world example_environ (example_args "1,2"))
    as [tr [ctx|e]] eqn:Hsetup.
  - exact (Hrun tr ctx eq_refl).
  - vm_compute in Hsetup. discriminate Hsetup.
Defined.

(** C4, as stated, fails on the code: in the example world the sizes
    [1,2] do not sum to [N = 8] and the run raises [AssertionError], but
    [make_encoder] of line 248 has been called before the assertion of
    line 260, so the encoder layers are constructed. *)
Lemma mismatch_after_encoder_built :
  traverse decimal (split "," "1,2") = Ok [1; 2]
  ∧ Py.sum [1; 2] ≠ Args.N (example_args "1,2")
  ∧ (test_encoder example_world example_environ (example_args "1,2")).2
    = Raise AssertionError
  ∧ (test_encoder example_world example_environ (example_args "1,2")).1
      !! 4%nat
    = Some (EvMakeEncoder 8 1024 2048 16)
  ∧ builds_model_state (EvMakeEncoder 8 1024 2048 16) = true
  ∧ ¬ fails_before_model_state example_world example_environ
        (example_args "1,2").
Proof.
  assert ((test_encoder example_world example_environ
             (example_args "1,2")).1 !! 4%nat
          = Some (EvMakeEncoder 8 1024 2048 16)) as Hev
    by (vm_compute; reflexivity).
  split; [reflexivity|]. split; [vm_compute; discriminate|].
  split; [vm_compute; reflexivity|]. split; [exact Hev|].
  split; [reflexivity|].
  intros (_ & _ & Hnone).
  rewrite Forall_lookup in Hnone. specialize (Hnone _ _ Hev).
  discriminate Hnone.
Qed.

(** In the example world the run with sizes [1,2,2,3] goes through: the
    pipeline model is built in custom mode on the ten-element layer list
    with boundaries [0,1,3,5,10], and ten training steps run. *)
Example run_custom :
  ∃ tr, test_encoder example_world example_environ (example_args "1,2,2,3")
        = (tr, Ok tt)
    ∧ tr !! 7%nat
      = Some (EvPipelineModule
                {| pm_layers := layers 8; pm_num_stages := 2;
                   pm_partition_method := custom;
                   pm_custom_partitions := [0; 1; 3; 5; 10] |})
    ∧ length (filter (λ ev, is_training_event ev = true) tr) = 14%nat.
Proof. eexists. split; [vm_compute; reflexivity|]. by vm_compute. Qed.

(** Without [--parts] the model is built in uniform mode on the same
    ten-element layer list, with no custom boundaries. *)
Example run_uniform :
  (test_encoder example_world example_environ (example_args "")).1 !! 7%nat
  = Some (EvPipelineModule
            {| pm_layers := layers 8; pm_num_stages := 2;
               pm_partition_method := uniform;
               pm_custom_partitions := [] |}).
Proof. by vm_compute. Qed.

End run_claims.

(** ** Topology Builder *)

Section topology.

Import Coordinator.
Local Open Scope nat_scope.

Lemma row_major_in_grid (P D i : nat) :
  i < P * D → in_grid P D (row_major D i).
Proof.
  intros Hi. assert (D ≠ 0) as HD by (intros ->; lia).
  unfold in_grid, row_major. simpl. split.
  - apply Nat.Div0.div_lt_upper_bound. lia.
  - by apply Nat.mod_upper_bound.
Qed.

Lemma row_major_inj (D i j : nat) :
  row_major D i = row_major D j → i = j.
Proof.
  unfold row_major. intros Heq. simplify_eq.
  rewrite (Nat.div_mod_eq i D), (Nat.div_mod_eq j D). congruence.
Qed.

Lemma row_major_surj (P D : nat) (c : GridCoordinate) :
  in_grid P D c →
  ∃ i, i < P * D ∧ row_major D i = c.
Proof.
  destruct c as [p d]. unfold in_grid. simpl. intros [Hp Hd].
  exists (p * D + d). split; [nia|].
  unfold row_major. f_equal.
  - symmetry. apply (Nat.div_unique _ _ _ d); lia.
  - symmetry. apply (Nat.mod_unique _ _ p); lia.
Qed.

Lemma build_workers (decision : list WorkerIdentity) (D : nat) :
  (imap (λ i w, (w, row_major D i)) decision).*1 = decision.
Proof.
  rewrite fmap_imap.
  rewrite (imap_ext _ (const id)) by done.
  by rewrite imap_const, list_fmap_id.
Qed.

Lemma build_coordinates (decision : list WorkerIdentity) (D : nat) :
  (imap (λ i w, (w, row_major D i)) decision).*2
  = row_major D <$> seq 0 (length decision).
Proof.
  rewrite fmap_imap.
  rewrite (imap_ext _ (λ i _, row_major D i)) by done.
  apply imap_seq_0.
Qed.

(** C1: when [P * D] is the size of the decision, [build] succeeds; the
    i-th worker in decision order gets [(i // D, i % D)]; the coordinates
    given are pairwise distinct, all in the grid, and every coordinate of
    the grid is given: a bijection from the workers onto [[0,P) × [0,D)].
    Six workers on a 3 × 2 grid get (0,0),(0,1),(1,0),(1,1),(2,0),(2,1). *)
Theorem build_row_major_bijection :
  (∀ (decision : list WorkerIdentity) (P D : nat),
     P * D = length decision →
     ∃ m, build decision P D = Done m
       ∧ m.*1 = decision
       ∧ (∀ i w, decision !! i = Some w →
            m !! i = Some (w, {| pipeline_rank := i / D;
                                 data_parallel_rank := i mod D |}))
       ∧ Forall (in_grid P D) m.*2
       ∧ NoDup m.*2
       ∧ (∀ c, in_grid P D c → c ∈ m.*2))
  ∧ (∀ w0 w1 w2 w3 w4 w5 : WorkerIdentity,
       build [w0; w1; w2; w3; w4; w5] 3 2
       = Done [ (w0, {| pipeline_rank := 0; data_parallel_rank := 0 |});
                (w1, {| pipeline_rank := 0; data_parallel_rank := 1 |});
                (w2, {| pipeline_rank := 1; data_parallel_rank := 0 |});
                (w3, {| pipeline_rank := 1; data_parallel_rank := 1 |});
                (w4, {| pipeline_rank := 2; data_parallel_rank := 0 |});
                (w5, {| pipeline_rank := 2; data_parallel_rank := 1 |}) ]).
Proof.
  split; [|reflexivity].
  intros decision P D Hsize.
  exists (imap (λ i w, (w, row_major D i)) decision).
  split; [unfold build; by rewrite decide_True|].
  split; [apply build_workers|].
  split; [intros i w Hi; by rewrite list_lookup_imap, Hi|].
  rewrite build_coordinates, <- Hsize.
  split; [|split].
  - apply Forall_fmap, Forall_forall. intros i Hi%elem_of_seq.
    apply row_major_in_grid. lia.
  - apply NoDup_fmap_2_strong; [|apply NoDup_seq].
    intros i j _ _. apply row_major_inj.
  - intros c (i & Hi & <-)%row_major_surj.
    apply list_elem_of_fmap_2, elem_of_seq. lia.
Qed.

Lemma build_row_major_bijection_witness :
  3 * 2 = length six_workers
  ∧ ∃ m, build six_workers 3 2 = Done m
      ∧ m.*1 = six_workers
      ∧ NoDup m.*2
      ∧ (∀ c, in_grid 3 2 c → c ∈ m.*2).
Proof.
  split; [reflexivity|].
  destruct (proj1 build_row_major_bijection six_workers 3 2 eq_refl)
    as (m & Hm & Hws & _ & _ & Hnd & Hsurj).
  exists m. exact (conj Hm (conj Hws (conj Hnd Hsurj))).
Defined.

(** C6: when [P * D] is not the size of the decision, [build] fails with
    [TopologyMismatch], a fatal error, and gives no assignment. *)
Theorem build_mismatch (decision : list WorkerIdentity) (P D : nat) :
  P * D ≠ length decision →
  build decision P D = Fail TopologyMismatch
  ∧ fatal TopologyMismatch = true
  ∧ ∀ m, build decision P D ≠ Done m.
Proof.
  intros Hne. unfold build. rewrite decide_False by done. by repeat split.
Qed.

Lemma build_mismatch_witness :
  3 * 2 ≠ length (take 5 six_workers)
  ∧ build (take 5 six_workers) 3 2 = Fail TopologyMismatch.
Proof.
  assert (3 * 2 ≠ length (take 5 six_workers)) as Hne by (simpl; lia).
  split; [exact Hne|].
  exact (proj1 (build_mismatch _ 3 2 Hne)).
Defined.

End topology.

(** ** Stage Partitioner, uniform mode *)

Section uniform.

Import Coordinator.
Local Open Scope nat_scope.

Lemma uniform_boundary_0 (N P : nat) : uniform_boundary N P 0 = 0.
Proof. unfold uniform_boundary. simpl. apply Nat.Div0.div_0_l. Qed.

Lemma uniform_boundary_last (N P : nat) :
  0 < P → uniform_boundary N P P = N.
Proof.
  intros HP. unfold uniform_boundary. rewrite Nat.mul_comm.
  apply Nat.div_mul. lia.
Qed.

Lemma uniform_boundary_mono (N P j j' : nat) :
  j ≤ j' → uniform_boundary N P j ≤ uniform_boundary N P j'.
Proof.
  intros Hj. unfold uniform_boundary.
  apply Nat.Div0.div_le_mono. by apply Nat.mul_le_mono_r.
Qed.

(** Every part has [N // P] or [N // P + 1] layers. *)
Lemma uniform_size_bounds (N P j : nat) :
  0 < P →
  N / P ≤ uniform_boundary N P (S j) - uniform_boundary N P j ≤ N / P + 1.
Proof.
  intros HP. unfold uniform_boundary.
  pose proof (Nat.div_mod_eq (j * N) P) as Hx.
  pose proof (Nat.div_mod_eq (S j * N) P) as Hy.
  pose proof (Nat.div_mod_eq N P) as Hn.
  pose proof (Nat.mod_upper_bound (j * N) P) as Hxr.
  pose proof (Nat.mod_upper_bound (S j * N) P) as Hyr.
  pose proof (Nat.mod_upper_bound N P) as Hnr.
  set (x := j * N / P) in *. set (y := S j * N / P) in *.
  set (q := N / P) in *.
  set (xr := (j * N) mod P) in *. set (yr := (S j * N) mod P) in *.
  set (r := N mod P) in *.
  assert (S j * N = j * N + N) as HS by lia.
  assert (P * y + yr = P * x + xr + P * q + r) as Heq by lia.
  clearbody x y q xr yr r. split.
  - assert (P * (x + q) < P * (y + 1)) by nia.
    assert (x + q < y + 1) by (apply (Nat.mul_lt_mono_pos_l P); lia). lia.
  - assert (P * y < P * (x + q + 2)) by nia.
    assert (y < x + q + 2) by (apply (Nat.mul_lt_mono_pos_l P); lia). lia.
Qed.

Lemma partition_uniform_lookup (N P j : nat) :
  j < P →
  partition_uniform N P !! j
  = Some (uniform_boundary N P j, uniform_boundary N P (S j)).
Proof.
  intros Hj. unfold partition_uniform.
  by rewrite list_lookup_fmap, lookup_seq_lt.
Qed.

Lemma partition_uniform_length (N P : nat) :
  length (partition_uniform N P) = P.
Proof. unfold partition_uniform. by rewrite length_fmap, length_seq. Qed.

Lemma partition_uniform_lookup_inv (N P j : nat) (r : nat * nat) :
  partition_uniform N P !! j = Some r →
  j < P ∧ r = (uniform_boundary N P j, uniform_boundary N P (S j)).
Proof.
  intros Hr. assert (j < P) as Hj.
  { apply lookup_lt_Some in Hr. by rewrite partition_uniform_length in Hr. }
  rewrite partition_uniform_lookup in Hr by done. by simplify_eq.
Qed.

(** A nondecreasing walk from [f 0] to [f n] passes every index between
    them. *)
Lemma locate_step (f : nat → nat) (n k : nat) :
  f 0 ≤ k < f n → ∃ j, j < n ∧ f j ≤ k < f (S j).
Proof.
  induction n as [|n IH]; intros Hk; [lia|].
  destruct (decide (f n ≤ k)) as [Hge|Hlt].
  - exists n. lia.
  - destruct IH as (j & Hj & Hin); [lia|]. exists j. lia.
Qed.

(** C5: for [1 <= P <= N] the uniform mode gives exactly [P] ranges; they
    are contiguous from [0] to [N] and none is empty; every layer index
    below [N] is in exactly one of them; two ranges differ by one layer at
    most.  Eight layers on four stages give [0,2),[2,4),[4,6),[6,8). *)
Theorem uniform_partition_balanced :
  (∀ N P : nat,
     0 < P → P ≤ N →
     let rs := partition_uniform N P in
     length rs = P
     ∧ (∃ r, head rs = Some r ∧ r.1 = 0)
     ∧ (∃ r, last rs = Some r ∧ r.2 = N)
     ∧ (∀ j r r', rs !! j = Some r → rs !! S j = Some r' → r.2 = r'.1)
     ∧ Forall (λ r, r.1 < r.2) rs
     ∧ (∀ k, k < N →
          ∃ j r, rs !! j = Some r ∧ in_range k r
            ∧ ∀ j' r', rs !! j' = Some r' → in_range k r' → j' = j)
     ∧ (∀ r r', r ∈ rs → r' ∈ rs → range_size r ≤ range_size r' + 1))
  ∧ partition_uniform 8 4 = [(0, 2); (2, 4); (4, 6); (6, 8)].
Proof.
  split; [|reflexivity].
  intros N P HP HPN rs. subst rs.
  split; [apply partition_uniform_length|].
  split.
  { exists (uniform_boundary N P 0, uniform_boundary N P 1).
    split; [|apply uniform_boundary_0].
    rewrite head_lookup. by apply partition_uniform_lookup. }
  split.
  { exists (uniform_boundary N P (pred P), uniform_boundary N P P).
    split; [|by apply uniform_boundary_last].
    rewrite last_lookup, partition_uniform_length.
    rewrite partition_uniform_lookup by lia.
    by replace (S (pred P)) with P by lia. }
  split.
  { intros j r r' (_ & ->)%partition_uniform_lookup_inv
      (_ & ->)%partition_uniform_lookup_inv. done. }
  split.
  { apply Forall_lookup. intros j r (Hj & ->)%partition_uniform_lookup_inv.
    simpl. pose proof (uniform_size_bounds N P j HP) as [Hlo _].
    assert (1 ≤ N / P) by (apply Nat.div_le_lower_bound; lia). lia. }
  split.
  { intros k Hk.
    destruct (locate_step (uniform_boundary N P) P k) as (j & Hj & Hin).
    { rewrite uniform_boundary_0, uniform_boundary_last by done. lia. }
    exists j, (uniform_boundary N P j, uniform_boundary N P (S j)).
    split; [by apply partition_uniform_lookup|]. split; [done|].
    intros j' r' (Hj' & ->)%partition_uniform_lookup_inv Hin'.
    unfold in_range in Hin'. simpl in Hin'.
    destruct (Nat.lt_trichotomy j j') as [Hlt|[Heq|Hgt]]; [|done|].
    - pose proof (uniform_boundary_mono N P (S j) j'). lia.
    - pose proof (uniform_boundary_mono N P (S j') j). lia. }
  intros r r' (j & Hr)%list_elem_of_lookup (j' & Hr')%list_elem_of_lookup.
  apply partition_uniform_lookup_inv in Hr as (_ & ->).
  apply partition_uniform_lookup_inv in Hr' as (_ & ->).
  unfold range_size. simpl.
  pose proof (uniform_size_bounds N P j HP).
  pose proof (uniform_size_bounds N P j' HP). lia.
Qed.

Lemma uniform_partition_balanced_witness :
  0 < 3 ∧ 3 ≤ 10
  ∧ length (partition_uniform 10 3) = 3
  ∧ partition_uniform 10 3 = [(0, 3); (3, 6); (6, 10)].
Proof.
  assert (0 < 3) as HP by lia. assert (3 ≤ 10) as HN by lia.
  split; [exact HP|]. split; [exact HN|].
  split; [|reflexivity].
  exact (proj1 (proj1 uniform_partition_balanced 10 3 HP HN)).
Defined.

End uniform.

(** ** Redundancy and Recovery Manager *)

Section recovery.

Import Coordinator.
Local Open Scope nat_scope.






Lemma redundancy_group_bound (decision : list WorkerIdentity) (D R p : nat) :
  length (redundancy_group decision D R p) ≤ R + 1.
Proof. unfold redundancy_group. rewrite length_take. lia. Qed.







End recovery.

(** ** Rendezvous Engine *)

Section rendezvous_round.

Import Coordinator.
Local Open Scope nat_scope.

Variable cfg : RoundConfig.

Lemma run_round_snoc (evs : list round_event) (ev : round_event) :
  run_round cfg (evs ++ [ev]) = round_step cfg (run_round cfg evs) ev.
Proof. unfold run_round. by rewrite foldl_app. Qed.

Lemma ticks_snoc (evs : list round_event) (ev : round_event) :
  ticks (evs ++ [ev])
  = ticks evs + match ev with Tick => 1 | Register _ => 0 end.
Proof.
  induction evs as [|e evs IH]; simpl.
  - destruct ev; done.
  - destruct e; rewrite IH; lia.
Qed.

Lemma below_quorum_run (evs : list round_event) :
  min_nodes cfg ≤ max_nodes cfg →
  0 < setup_timeout cfg →
  (∀ pre, pre `prefix_of` evs →
     length (registered (run_round cfg pre)) < min_nodes cfg) →
  below_quorum cfg evs (run_round cfg evs).
Proof.
  intros Hcfg Hpos. induction evs as [|ev evs IH] using rev_ind; intros Hlow.
  - split; [done|]. left. simpl. done.
  - specialize (Hlow (evs ++ [ev])) as Hnow.
    specialize (Hnow (reflexivity _)).
    destruct IH as [Hq Hst].
    { intros pre Hpre. apply Hlow. by apply prefix_app_r. }
    rewrite run_round_snoc in Hnow |- *.
    set (r := run_round cfg evs) in *.
    unfold below_quorum. rewrite ticks_snoc.
    destruct Hst as [(Hopen & Hclock & Hlt) | (Hout & Hge)].
    + unfold round_step in Hnow |- *. rewrite Hopen in Hnow |- *.
      destruct ev as [w|].
      * destruct (decide (w ∈ registered r)).
        { split; [done|]. left. rewrite Nat.add_0_r. done. }
        destruct (decide (max_nodes cfg ≤ length (registered r ++ [w])));
          [simpl in Hnow; lia|].
        destruct (decide (min_nodes cfg ≤ length (registered r ++ [w])));
          [simpl in Hnow; lia|].
        simpl. split; [done|]. left. rewrite Nat.add_0_r. done.
      * rewrite Hq.
        destruct (decide (setup_timeout cfg ≤ S (clock r))); simpl.
        { split; [done|]. right. split; [done|lia]. }
        split; [done|]. left. split; [done|]. lia.
    + unfold round_step. rewrite Hout. split; [done|]. right.
      split; [done|lia].
Qed.

(** A round in which a single worker registers holds that worker at most. *)
Lemma single_joiner_registered (w : WorkerIdentity)
    (evs : list round_event) :
  Forall (λ ev, ev = Tick ∨ ev = Register w) evs →
  length (registered (run_round cfg evs)) ≤ 1.
Proof.
  intros Hevs.
  enough (registered (run_round cfg evs) = []
          ∨ registered (run_round cfg evs) = [w]) as [Hr | Hr]
    by (rewrite Hr; simpl; lia).
  induction evs as [|ev evs IH] using rev_ind; [by left|].
  apply Forall_app in Hevs as [Hevs Hev].
  apply Forall_inv in Hev.
  specialize (IH Hevs). rewrite run_round_snoc.
  set (r := run_round cfg evs) in *. unfold round_step.
  destruct (status r); [|done..].
  destruct Hev as [-> | ->].
  - destruct (quorum_at r); repeat case_decide; done.
  - destruct (decide (w ∈ registered r)); [done|].
    destruct IH as [Hr | Hr]; rewrite Hr in *.
    + repeat case_decide; simpl; by right.
    + exfalso. apply n. apply list_elem_of_here.
Qed.

End rendezvous_round.

Section rendezvous_claims.

Import Coordinator.
Local Open Scope nat_scope.

(** C8: in a round whose number of registered workers stays below
    [min_nodes] at every moment, once the setup timeout has elapsed [join]
    fails with [RendezvousTimeout], a fatal error.  With [min_nodes = 2]
    and [max_nodes = 4], a round in which a single worker registers ends
    that way. *)
Theorem join_times_out_below_quorum :
  (∀ (cfg : RoundConfig) (evs : list round_event),
     min_nodes cfg ≤ max_nodes cfg →
     0 < setup_timeout cfg →
     (∀ pre, pre `prefix_of` evs →
        length (registered (run_round cfg pre)) < min_nodes cfg) →
     setup_timeout cfg ≤ ticks evs →
     join cfg evs = Some (Fail RendezvousTimeout)
     ∧ fatal RendezvousTimeout = true)
  ∧ (∀ (last_call setup : nat) (w : WorkerIdentity)
       (evs : list round_event),
       0 < setup →
       Forall (λ ev, ev = Tick ∨ ev = Register w) evs →
       setup ≤ ticks evs →
       join {| min_nodes := 2; max_nodes := 4;
               last_call_timeout := last_call; setup_timeout := setup |}
            evs
       = Some (Fail RendezvousTimeout)).
Proof.
  assert (∀ (cfg : RoundConfig) (evs : list round_event),
     min_nodes cfg ≤ max_nodes cfg →
     0 < setup_timeout cfg →
     (∀ pre, pre `prefix_of` evs →
        length (registered (run_round cfg pre)) < min_nodes cfg) →
     setup_timeout cfg ≤ ticks evs →
     join cfg evs = Some (Fail RendezvousTimeout)) as Hgen.
  { intros cfg evs Hcfg Hpos Hlow Hticks.
    destruct (below_quorum_run cfg evs Hcfg Hpos Hlow)
      as [_ [(_ & Hclock & Hlt) | (Hout & _)]]; [lia|].
    unfold join. by rewrite Hout. }
  split; [intros; split; [by apply Hgen|done]|].
  intros last_call setup w evs Hpos Hevs Hticks.
  apply Hgen; simpl; [lia|done| |done].
  intros pre [k ->]. apply Forall_app in Hevs as [Hpre _].
  pose proof (single_joiner_registered
                {| min_nodes := 2; max_nodes := 4;
                   last_call_timeout := last_call;
                   setup_timeout := setup |} w pre Hpre).
  lia.
Qed.

Lemma join_times_out_below_quorum_witness :
  let w := Build_WorkerIdentity "0" "10.0.0.1" in
  let evs := [Register w; Tick; Tick; Tick] in
  0 < 3
  ∧ Forall (λ ev, ev = Tick ∨ ev = Register w) evs
  ∧ 3 ≤ ticks evs
  ∧ join {| min_nodes := 2; max_nodes := 4;
            last_call_timeout := 1; setup_timeout := 3 |} evs
    = Some (Fail RendezvousTimeout).
Proof.
  intros w evs.
  assert (0 < 3) as Hpos by lia.
  assert (Forall (λ ev, ev = Tick ∨ ev = Register w) evs) as Hevs.
  { unfold evs. repeat apply Forall_cons_2; auto. }
  assert (3 ≤ ticks evs) as Hticks by (simpl; lia).
  split; [exact Hpos|]. split; [exact Hevs|]. split; [exact Hticks|].
  exact (proj2 join_times_out_below_quorum 1 3 w evs Hpos Hevs Hticks).
Defined.

(** With quorum the same clock closes the round instead: two workers and
    a last-call window of one tick give the decision in registration
    order. *)
Example join_closes_with_quorum (a b : WorkerIdentity) :
  a ≠ b →
  join {| min_nodes := 2; max_nodes := 4;
          last_call_timeout := 1; setup_timeout := 3 |}
       [Register a; Tick; Register b; Tick]
  = Some (Done [a; b]).
Proof.
  intros Hab. unfold join, run_round. simpl. unfold round_step. simpl.
  rewrite decide_False by (rewrite list_elem_of_singleton; congruence).
  done.
Qed.

End rendezvous_claims.

(** ** Further properties of the custom partition *)

Section custom_more.

(** The outcome of lines 260-262 is decided by the sum and by emptiness
    alone: a wrong sum is an [AssertionError] whatever else holds; an empty
    list of sum [N] has no last entry to widen; every other list, negative
    and zero sizes included, gives boundaries. *)
Theorem custom_partitions_outcome (N : Z) (sizes : list Z) :
  (Py.sum sizes ≠ N ↔ custom_partitions N sizes = Raise AssertionError)
  ∧ (sizes = [] ∧ N = 0 ↔ custom_partitions N sizes = Raise IndexError)
  ∧ (sizes ≠ [] ∧ Py.sum sizes = N
     ↔ ∃ bs, custom_partitions N sizes = Ok bs).
Proof.
  destruct (decide (Py.sum sizes = N)) as [Hsum|Hsum].
  - destruct (last sizes) as [p|] eqn:Hlast.
    + assert (sizes ≠ []) as Hne by (intros ->; discriminate).
      rewrite (custom_partitions_Ok N sizes p Hsum Hlast).
      split; [split; [done|discriminate]|].
      split; [split; [by intros [? _]|discriminate]|].
      split; [eauto|done].
    + apply last_None in Hlast. subst sizes. rewrite sum_nil in Hsum.
      subst N. split; [split; [done|discriminate]|].
      split; [done|]. split; [by intros [? _]|].
      intros [bs Hbs]. discriminate.
  - rewrite (custom_partitions_mismatch N sizes Hsum).
    split; [done|]. split.
    + split; [|discriminate]. intros [-> ->]. by rewrite sum_nil in Hsum.
    + split; [by intros [_ ?]|]. intros [bs ?]. discriminate.
Qed.

Lemma stage_sizes_boundaries (parts : list Z) :
  stage_sizes (boundaries parts) = parts.
Proof.
  apply list_eq. intros j. unfold stage_sizes.
  rewrite lookup_zip_with, lookup_tail.
  destruct (decide (j < length parts)%nat) as [Hj|Hj].
  - rewrite !boundaries_lookup by lia. simpl.
    destruct (lookup_lt_is_Some_2 parts j Hj) as [p Hp].
    rewrite (sum_take_S _ _ _ Hp), Hp. f_equal. lia.
  - rewrite (lookup_ge_None_2 parts) by lia.
    rewrite (lookup_ge_None_2 (boundaries parts) (S j))
      by (rewrite boundaries_length; lia).
    by destruct (boundaries parts !! j).
Qed.

(** The boundaries hand back the sizes: the stage sizes read from the
    result of [custom_partitions] are the sizes given, the last one larger
    by [2]. *)
Theorem custom_partitions_stage_sizes (N : Z) (sizes bs : list Z) :
  custom_partitions N sizes = Ok bs →
  length (stage_sizes bs) = length sizes
  ∧ (∀ j, (S j < length sizes)%nat → stage_sizes bs !! j = sizes !! j)
  ∧ (∃ p, last sizes = Some p ∧ last (stage_sizes bs) = Some (p + 2))
  ∧ Py.sum (stage_sizes bs) = N + 2.
Proof.
  intros (Hsum & p & Hlast & ->)%custom_partitions_inv.
  rewrite stage_sizes_boundaries, length_insert.
  assert (sizes ≠ []) as Hne by (intros ->; discriminate).
  assert (0 < length sizes)%nat by (destruct sizes; [done|simpl; lia]).
  split; [done|]. split; [|split].
  - intros j Hj. by rewrite list_lookup_insert_ne by lia.
  - exists p. split; [done|].
    rewrite last_lookup, length_insert. apply list_lookup_insert_eq. lia.
  - rewrite last_lookup in Hlast. rewrite (sum_insert _ _ _ _ Hlast). lia.
Qed.

Lemma custom_partitions_stage_sizes_witness :
  custom_partitions 8 [1; 2; 2; 3] = Ok [0; 1; 3; 5; 10]
  ∧ stage_sizes [0; 1; 3; 5; 10] = [1; 2; 2; 5]
  ∧ Py.sum (stage_sizes [0; 1; 3; 5; 10]) = 8 + 2.
Proof.
  split; [reflexivity|]. split; [reflexivity|].
  exact (proj2 (proj2 (proj2
    (custom_partitions_stage_sizes 8 [1; 2; 2; 3] [0; 1; 3; 5; 10]
       eq_refl)))).
Defined.

(** The layer list of line 250: [Encoder.join_layers] and the sum; the
    copies of the encoder layer come first, in order, then the norm and the
    sum; a layer count of zero or less leaves the norm and the sum alone. *)
Theorem layers_structure (N : Z) :
  layers N = join_layers N ++ [SumLast]
  ∧ length (layers N) = (Z.to_nat N + 2)%nat
  ∧ (∀ k, (k < Z.to_nat N)%nat → layers N !! k = Some (EncoderLayer k))
  ∧ layers N !! Z.to_nat N = Some FinalNorm
  ∧ layers N !! S (Z.to_nat N) = Some SumLast
  ∧ (N ≤ 0 → layers N = [FinalNorm; SumLast]).
Proof.
  split; [unfold layers, join_layers; by rewrite <- app_assoc|].
  split; [apply layers_length|].
  split; [intros k; apply layers_encoder|].
  destruct (layers_trailing N) as [Hn Hs].
  split; [done|]. split; [done|].
  intros HN. unfold layers, clones.
  by replace (Z.to_nat N) with 0%nat by lia.
Qed.

(** [MultiHeadedAttention.__init__] raises [ZeroDivisionError] for no
    heads, [AssertionError] when the heads do not divide the width, and
    otherwise sets [d_k] with [h * d_k = d_model], so the heads put side by
    side are as wide as the model. *)
Theorem attention_heads_divide (h d_model : Z) :
  (h = 0 ↔ MultiHeadedAttention_init h d_model = Raise ZeroDivisionError)
  ∧ (h ≠ 0 ∧ d_model `mod` h ≠ 0
     ↔ MultiHeadedAttention_init h d_model = Raise AssertionError)
  ∧ (∀ d_k h', MultiHeadedAttention_init h d_model = Ok (d_k, h') →
       h' = h ∧ h * d_k = d_model)
  ∧ (h ≠ 0 → d_model `mod` h = 0 →
     MultiHeadedAttention_init h d_model = Ok (d_model `div` h, h)).
Proof.
  unfold MultiHeadedAttention_init.
  destruct (decide (h = 0)) as [->|Hh].
  - simpl. split; [done|]. split; [split; [by intros [? _]|discriminate]|].
    split; [discriminate|done].
  - rewrite (bool_decide_eq_false_2 _ Hh).
    destruct (decide (d_model `mod` h = 0)) as [Hmod|Hmod].
    + rewrite (bool_decide_eq_true_2 _ Hmod). simpl.
      split; [split; [done|discriminate]|].
      split; [split; [by intros [_ ?]|discriminate]|].
      split; [|done]. intros d_k h' [= <- <-]. split; [done|].
      pose proof (Z_div_mod_eq_full d_model h). lia.
    + rewrite (bool_decide_eq_false_2 _ Hmod). simpl.
      split; [split; [done|discriminate]|].
      split; [done|]. split; [discriminate|done].
Qed.

End custom_more.

(** ** Further properties of the run of [test_encoder] *)

Section run_more.

Variable W : world.
Variable environ : gmap string string.

Lemma rendezvous_pure :
  rendezvous W environ
  = (kw ← pure (rendezvous_kwargs W environ);
     call (EvRendezvousParameters kw) (RendezvousParameters W kw);;
     call (EvCreateRdzvHandler kw) (create_rdzv_handler W kw);;
     mret kw).
Proof.
  unfold rendezvous, rendezvous_kwargs. cbv zeta.
  destruct (environ_get environ "PROJECT_PACTUM_ENDPOINT") as [ep|];
    simpl; [|reflexivity].
  destruct (environ_get environ "PROJECT_PACTUM_RUN_ID") as [id|];
    simpl; [|reflexivity].
  destruct (environ_int W environ "PROJECT_PACTUM_MIN_NODES") as [mn|];
    simpl; [|reflexivity].
  destruct (environ_int W environ "PROJECT_PACTUM_MAX_NODES") as [mx|];
    simpl; [|reflexivity].
  destruct (environ_get environ "PROJECT_PACTUM_RDZV_CONFIGS") as [blob|];
    simpl; [|reflexivity].
  destruct (json_loads W blob) as [loaded|]; simpl; [|reflexivity].
  destruct (setitem loaded "last_call_timeout" (JInt 1)) as [cfg|];
    simpl; [|reflexivity].
  destruct (keyword_call "etcd-v2" ep id mn mx cfg) as [kw|];
    simpl; [|reflexivity].
  destruct (RendezvousParameters W kw) as [[]|]; simpl; [|reflexivity].
  destruct (create_rdzv_handler W kw) as [[]|]; reflexivity.
Qed.

Lemma test_encoder_rendezvous_raises (args : Args.t) (e : exn) :
  rendezvous_kwargs W environ = Raise e →
  test_encoder W environ args = ([], Raise e).
Proof.
  intros Hkw. unfold test_encoder, setup.
  by rewrite rendezvous_pure, Hkw.
Qed.

Lemma environ_get_None (key : string) :
  environ !! key = None → environ_get environ key = Raise (KeyError key).
Proof. unfold environ_get. by intros ->. Qed.

Lemma environ_int_None (key : string) :
  environ !! key = None → environ_int W environ key = Raise (KeyError key).
Proof. intros Hk. unfold environ_int. by rewrite environ_get_None. Qed.

(** A missing rendezvous variable stops [test_encoder] before its first
    external call; a missing endpoint is reported as the [KeyError] of its
    name. *)
Theorem missing_variable_no_call (args : Args.t) (key : string) :
  key ∈ rendezvous_variables → environ !! key = None →
  (∃ e, test_encoder W environ args = ([], Raise e))
  ∧ (key = "PROJECT_PACTUM_ENDPOINT"%string →
     test_encoder W environ args
     = ([], Raise (KeyError "PROJECT_PACTUM_ENDPOINT"))).
Proof.
  intros Hkey Hnone.
  assert (∃ e, rendezvous_kwargs W environ = Raise e
               ∧ (key = "PROJECT_PACTUM_ENDPOINT"%string →
                  e = KeyError "PROJECT_PACTUM_ENDPOINT")) as (e & He & Hep).
  { unfold rendezvous_kwargs, rendezvous_variables in *.
    destruct (environ_get environ "PROJECT_PACTUM_ENDPOINT") as [ep|e1] eqn:H1;
      simpl; [|exists e1; split; [done|]; intros ->;
               rewrite environ_get_None in H1 by done; congruence].
    destruct (environ_get environ "PROJECT_PACTUM_RUN_ID") as [id|e2] eqn:H2;
      simpl; [|exists e2; split; [done|]; intros ->;
               rewrite environ_get_None in H1 by done; congruence].
    destruct (environ_int W environ "PROJECT_PACTUM_MIN_NODES")
      as [mn|e3] eqn:H3;
      simpl; [|exists e3; split; [done|]; intros ->;
               rewrite environ_get_None in H1 by done; congruence].
    destruct (environ_int W environ "PROJECT_PACTUM_MAX_NODES")
      as [mx|e4] eqn:H4;
      simpl; [|exists e4; split; [done|]; intros ->;
               rewrite environ_get_None in H1 by done; congruence].
    destruct (environ_get environ "PROJECT_PACTUM_RDZV_CONFIGS")
      as [blob|e5] eqn:H5;
      simpl; [|exists e5; split; [done|]; intros ->;
               rewrite environ_get_None in H1 by done; congruence].
    exfalso. set_unfold in Hkey.
    destruct Hkey as [->|[->|[->|[->|[->|[]]]]]].
    - rewrite environ_get_None in H1 by done. congruence.
    - rewrite environ_get_None in H2 by done. congruence.
    - rewrite environ_int_None in H3 by done. congruence.
    - rewrite environ_int_None in H4 by done. congruence.
    - rewrite environ_get_None in H5 by done. congruence. }
  split.
  - exists e. by apply test_encoder_rendezvous_raises.
  - intros Hk. rewrite <- (Hep Hk).
    by apply test_encoder_rendezvous_raises.
Qed.

(** A configuration blob that is not a JSON object, or that repeats one
    of the five explicit keywords, stops [test_encoder] before its first
    external call; when the four variables before it are read, the
    exception is a [TypeError]. *)
Theorem invalid_config_no_call (args : Args.t) (blob : string)
    (loaded : json) :
  environ !! "PROJECT_PACTUM_RDZV_CONFIGS"%string = Some blob →
  json_loads W blob = Ok loaded →
  (∀ d, loaded ≠ JDict d)
  ∨ (∃ d k, loaded = JDict d ∧ k ∈ explicit_keywords ∧ is_Some (d !! k)) →
  (∃ e, test_encoder W environ args = ([], Raise e))
  ∧ (∀ ep id mn mx,
       environ_get environ "PROJECT_PACTUM_ENDPOINT" = Ok ep →
       environ_get environ "PROJECT_PACTUM_RUN_ID" = Ok id →
       environ_int W environ "PROJECT_PACTUM_MIN_NODES" = Ok mn →
       environ_int W environ "PROJECT_PACTUM_MAX_NODES" = Ok mx →
       test_encoder W environ args = ([], Raise TypeError)).
Proof.
  intros Hblob Hload Hbad.
  assert (∀ ep id mn mx,
            (cfg ← setitem loaded "last_call_timeout" (JInt 1);
             keyword_call "etcd-v2" ep id mn mx cfg) = Raise TypeError)
    as Htail.
  { intros ep id mn mx. destruct Hbad as [Hnd | (d & k & -> & Hk & Hin)].
    - destruct loaded; try done. by destruct (Hnd d).
    - simpl. unfold keyword_call. rewrite bool_decide_eq_true_2; [done|].
      apply Exists_exists. exists k. split; [done|].
      destruct (decide (k = "last_call_timeout"%string)) as [->|Hne].
      + rewrite lookup_insert_eq. eauto.
      + by rewrite lookup_insert_ne. }
  assert (∃ e, rendezvous_kwargs W environ = Raise e
    ∧ (∀ ep id mn mx,
         environ_get environ "PROJECT_PACTUM_ENDPOINT" = Ok ep →
         environ_get environ "PROJECT_PACTUM_RUN_ID" = Ok id →
         environ_int W environ "PROJECT_PACTUM_MIN_NODES" = Ok mn →
         environ_int W environ "PROJECT_PACTUM_MAX_NODES" = Ok mx →
         e = TypeError)) as (e & He & Hty).
  { unfold rendezvous_kwargs.
    destruct (environ_get environ "PROJECT_PACTUM_ENDPOINT") as [ep|e1];
      simpl; [|exists e1; split; [done|]; intros; discriminate].
    destruct (environ_get environ "PROJECT_PACTUM_RUN_ID") as [id|e2];
      simpl; [|exists e2; split; [done|]; intros; discriminate].
    destruct (environ_int W environ "PROJECT_PACTUM_MIN_NODES") as [mn|e3];
      simpl; [|exists e3; split; [done|]; intros; discriminate].
    destruct (environ_int W environ "PROJECT_PACTUM_MAX_NODES") as [mx|e4];
      simpl; [|exists e4; split; [done|]; intros; discriminate].
    unfold environ_get at 1. rewrite Hblob. simpl. rewrite Hload. simpl.
    exists TypeError. split; [apply (Htail ep id mn mx)|done]. }
  split.
  - exists e. by apply test_encoder_rendezvous_raises.
  - intros ep id mn mx H1 H2 H3 H4. rewrite <- (Hty ep id mn mx) by done.
    by apply test_encoder_rendezvous_raises.
Qed.

End run_more.

Lemma missing_variable_no_call_witness :
  "PROJECT_PACTUM_RUN_ID"%string ∈ rendezvous_variables
  ∧ delete "PROJECT_PACTUM_RUN_ID"%string example_environ
      !! "PROJECT_PACTUM_RUN_ID"%string = None
  ∧ ∃ e, test_encoder example_world
           (delete "PROJECT_PACTUM_RUN_ID"%string example_environ)
           (example_args "")
         = ([], Raise e).
Proof.
  assert ("PROJECT_PACTUM_RUN_ID"%string ∈ rendezvous_variables) as Hin.
  { unfold rendezvous_variables. apply list_elem_of_further.
    apply list_elem_of_here. }
  split; [exact Hin|]. split; [apply lookup_delete_eq|].
  exact (proj1 (missing_variable_no_call example_world _ (example_args "")
                  _ Hin (lookup_delete_eq _ _))).
Defined.

Lemma invalid_config_no_call_witness :
  example_environ !! "PROJECT_PACTUM_RDZV_CONFIGS"%string
  = Some ("{" +:+ String "034" "last_call_timeout" +:+ String "034" ": 30}")
  ∧ json_loads list_config_world
      ("{" +:+ String "034" "last_call_timeout" +:+ String "034" ": 30}")
    = Ok (JList [JInt 30])
  ∧ test_encoder list_config_world example_environ (example_args "")
    = ([], Raise TypeError).
Proof.
  assert (example_environ !! "PROJECT_PACTUM_RDZV_CONFIGS"%string
          = Some ("{" +:+ String "034" "last_call_timeout"
                  +:+ String "034" ": 30}")) as Hblob by (by vm_compute).
  split; [exact Hblob|]. split; [reflexivity|].
  refine (proj2 (invalid_config_no_call list_config_world example_environ
                   (example_args "") _ (JList [JInt 30]) Hblob eq_refl _)
            "10.0.0.9:2379"%string "run"%string 2 4 _ _ _ _).
  - left. intros d. discriminate.
  - by vm_compute.
  - by vm_compute.
  - by vm_compute.
  - by vm_compute.
Defined.

Section run_phases.

Variable W : world.
Variable environ : gmap string string.

Lemma rendezvous_kwargs_Ok (kw : rdzv_kwargs) :
  rendezvous_kwargs W environ = Ok kw →
  kw_backend kw = "etcd-v2"%string
  ∧ environ !! "PROJECT_PACTUM_ENDPOINT"%string = Some (kw_endpoint kw)
  ∧ environ !! "PROJECT_PACTUM_RUN_ID"%string = Some (kw_run_id kw)
  ∧ environ_int W environ "PROJECT_PACTUM_MIN_NODES" = Ok (kw_min_nodes kw)
  ∧ environ_int W environ "PROJECT_PACTUM_MAX_NODES" = Ok (kw_max_nodes kw)
  ∧ ∃ blob d,
      environ !! "PROJECT_PACTUM_RDZV_CONFIGS"%string = Some blob
      ∧ json_loads W blob = Ok (JDict d)
      ∧ kw_configs kw = <["last_call_timeout"%string := JInt 1]> d
      ∧ Forall (λ k, d !! k = None) explicit_keywords.
Proof.
  unfold rendezvous_kwargs.
  destruct (environ_get environ "PROJECT_PACTUM_ENDPOINT") as [ep|] eqn:H1;
    simpl; [|done].
  destruct (environ_get environ "PROJECT_PACTUM_RUN_ID") as [id|] eqn:H2;
    simpl; [|done].
  destruct (environ_int W environ "PROJECT_PACTUM_MIN_NODES") as [mn|] eqn:H3;
    simpl; [|done].
  destruct (environ_int W environ "PROJECT_PACTUM_MAX_NODES") as [mx|] eqn:H4;
    simpl; [|done].
  destruct (environ_get environ "PROJECT_PACTUM_RDZV_CONFIGS")
    as [blob|] eqn:H5; simpl; [|done].
  destruct (json_loads W blob) as [loaded|] eqn:H6; simpl; [|done].
  destruct (setitem loaded "last_call_timeout" (JInt 1)) as [cfg|] eqn:H7;
    simpl; [|done].
  apply setitem_Ok in H7 as (d & -> & ->).
  unfold keyword_call. case_bool_decide as Hdup; [done|].
  intros [= <-]. simpl.
  apply environ_get_Ok in H1, H2, H5.
  repeat split; try done. exists blob, d. repeat split; try done.
  apply Forall_forall. intros k Hk.
  destruct (d !! k) as [v|] eqn:Hdk; [|done]. exfalso. apply Hdup.
  apply Exists_exists. exists k. split; [done|].
  destruct (decide (k = "last_call_timeout"%string)) as [->|Hne].
  - rewrite lookup_insert_eq. eauto.
  - rewrite lookup_insert_ne by done. eauto.
Qed.

Lemma rendezvous_event_kwargs (ev : event) :
  ev ∈ (rendezvous W environ).1 →
  ∃ kw, rendezvous_kwargs W environ = Ok kw
    ∧ (ev = EvRendezvousParameters kw ∨ ev = EvCreateRdzvHandler kw).
Proof.
  rewrite rendezvous_pure. intros Hin. trace_inv Hin; simpl in *; eauto.
Qed.

Lemma handler_event_in_rendezvous (args : Args.t) (kw : rdzv_kwargs) :
  EvCreateRdzvHandler kw ∈ (test_encoder W environ args).1 →
  EvCreateRdzvHandler kw ∈ (rendezvous W environ).1.
Proof.
  intros Hin.
  apply test_encoder_trace in Hin as [Hin|Hin]; [|simpl in Hin; discriminate].
  unfold setup in Hin.
  apply bind_trace in Hin as [Hin | (a & _ & Hin)]; [done|].
  unfold make_encoder in Hin. trace_inv Hin; discriminate.
Qed.

(** The handler is created for the backend [etcd-v2] with the endpoint,
    run id and node bounds of the environment, and with every key of the
    configuration blob other than [last_call_timeout] as the blob has it;
    none of them is one of the five explicit keywords. *)
Theorem handler_keywords (args : Args.t) (kw : rdzv_kwargs) :
  EvCreateRdzvHandler kw ∈ (test_encoder W environ args).1 →
  kw_backend kw = "etcd-v2"%string
  ∧ environ !! "PROJECT_PACTUM_ENDPOINT"%string = Some (kw_endpoint kw)
  ∧ environ !! "PROJECT_PACTUM_RUN_ID"%string = Some (kw_run_id kw)
  ∧ environ_int W environ "PROJECT_PACTUM_MIN_NODES" = Ok (kw_min_nodes kw)
  ∧ environ_int W environ "PROJECT_PACTUM_MAX_NODES" = Ok (kw_max_nodes kw)
  ∧ ∃ blob d,
      environ !! "PROJECT_PACTUM_RDZV_CONFIGS"%string = Some blob
      ∧ json_loads W blob = Ok (JDict d)
      ∧ (∀ k, k ≠ "last_call_timeout"%string → kw_configs kw !! k = d !! k)
      ∧ Forall (λ k, kw_configs kw !! k = None) explicit_keywords.
Proof.
  intros Hin%handler_event_in_rendezvous.
  apply rendezvous_event_kwargs in Hin as (kw' & Hkw & [Hev|Hev]);
    [discriminate|]. simplify_eq.
  apply rendezvous_kwargs_Ok in Hkw
    as (Hb & Hep & Hid & Hmn & Hmx & blob & d & Hblob & Hload & Hcfg & Hex).
  repeat split; try done. exists blob, d. repeat split; try done.
  - intros k Hk. rewrite Hcfg. by apply lookup_insert_ne.
  - rewrite Hcfg. apply Forall_forall. intros k Hk.
    rewrite lookup_insert_ne.
    + by apply (proj1 (Forall_forall _ _) Hex).
    + intros <-. unfold explicit_keywords in Hk.
      repeat (apply elem_of_cons in Hk as [Hk|Hk]; [discriminate|]).
      by apply elem_of_nil in Hk.
Qed.

Lemma make_encoder_check_raises (N d_model d_ff h : Z) (e : exn) :
  MultiHeadedAttention_init h d_model = Raise e →
  make_encoder W N d_model d_ff h = ([], Raise e).
Proof.
  unfold MultiHeadedAttention_init, make_encoder.
  destruct (if bool_decide (h = 0) then Raise ZeroDivisionError
            else assert (bool_decide (d_model `mod` h = 0))) as [[]|e'];
    simpl; [done|]. by intros [= ->].
Qed.

Lemma setup_process_group (args : Args.t) :
  setup W environ args
  = (process_group W environ args;;
     encoder ← make_encoder W (Args.N args) (Args.d_model args)
                 (Args.d_ff args) (Args.H args);
     data_parallel_size
       ← pure (environ_int W environ "PROJECT_PACTUM_NUM_PIPELINES");
     pipe_parallel_size
       ← pure (environ_int W environ "PROJECT_PACTUM_NUM_STAGES");
     global_decision ← call EvGetGlobalDecision (get_global_decision W);
     call (EvTopology pipe_parallel_size data_parallel_size global_decision)
          (PipeDataParallelTopology W pipe_parallel_size data_parallel_size
             global_decision);;
     mret (encoder.1 ++ [encoder.2; SumLast], data_parallel_size,
           pipe_parallel_size)).
Proof.
  unfold setup, process_group. cbv zeta.
  set (k := make_encoder W _ _ _ _ ≫= _). clearbody k.
  destruct (rendezvous W environ) as [t0 [kw|]]; simpl; [|reflexivity].
  destruct (environ_int W environ "RANK") as [rank|]; simpl;
    [|by rewrite app_nil_r].
  destruct (environ_int W environ "WORLD_SIZE") as [ws|]; simpl;
    [|by rewrite app_nil_r].
  destruct (setup_kv_store W) as [[]|]; simpl; [|reflexivity].
  destruct (init_distributed W (Args.backend args) rank ws) as [[]|]; simpl;
    [|reflexivity].
  destruct k as [t r]. by rewrite <- !app_assoc.
Qed.

Lemma process_group_trace (args : Args.t) (ev : event) :
  ev ∈ (process_group W environ args).1 → after_encoder_check ev = false.
Proof.
  unfold process_group. intros Hin. trace_inv Hin; subst; try done.
  apply rendezvous_trace in Hin as (kw & _ & _ & [-> | ->] & _); done.
Qed.

(** A head count that is zero or does not divide the model width is
    found when the encoder is made, after the rendezvous handler and the
    process group are set up: [test_encoder] raises with the calls of the
    process group as its whole run, and when those returned the exception
    is the one of [MultiHeadedAttention]. *)
Theorem heads_checked_after_process_group (args : Args.t) (e : exn) :
  MultiHeadedAttention_init (Args.H args) (Args.d_model args) = Raise e →
  (∃ e', (test_encoder W environ args).2 = Raise e')
  ∧ (test_encoder W environ args).1 = (process_group W environ args).1
  ∧ Forall (λ ev, after_encoder_check ev = false)
      (test_encoder W environ args).1
  ∧ (∀ tr, process_group W environ args = (tr, Ok tt) →
       test_encoder W environ args = (tr, Raise e)).
Proof.
  intros Hinit.
  assert (setup W environ args
          = match process_group W environ args with
            | (tr, Ok _) => (tr, Raise e)
            | (tr, Raise e') => (tr, Raise e')
            end) as Hsetup.
  { rewrite setup_process_group.
    rewrite (make_encoder_check_raises _ _ _ _ _ Hinit).
    destruct (process_group W environ args) as [tr [[]|e']]; simpl;
      [by rewrite app_nil_r|done]. }
  assert (∃ e', test_encoder W environ args
                = ((process_group W environ args).1, Raise e')
                ∧ (∀ tr, process_group W environ args = (tr, Ok tt) →
                     e' = e)) as (e' & Hrun & He').
  { destruct (process_group W environ args) as [tr [[]|e']] eqn:Hpg.
    - exists e. split; [|done]. by apply test_encoder_setup_raises.
    - exists e'. split; [|intros; discriminate].
      by apply test_encoder_setup_raises. }
  rewrite Hrun. simpl. split; [eauto|]. split; [done|]. split.
  - apply Forall_forall. intros ev. apply process_group_trace.
  - intros tr Hpg. rewrite (He' tr Hpg). by rewrite Hpg.
Qed.

End run_phases.

Lemma handler_keywords_witness :
  EvCreateRdzvHandler example_kwargs
    ∈ (test_encoder example_world example_environ (example_args "")).1
  ∧ kw_backend example_kwargs = "etcd-v2"%string
  ∧ environ_int example_world example_environ "PROJECT_PACTUM_MIN_NODES"
    = Ok (kw_min_nodes example_kwargs).
Proof.
  assert (EvCreateRdzvHandler example_kwargs
            ∈ (test_encoder example_world example_environ
                 (example_args "")).1) as Hin.
  { apply list_elem_of_lookup. exists 1%nat. vm_compute. reflexivity. }
  split; [exact Hin|].
  destruct (handler_keywords example_world example_environ (example_args "")
              example_kwargs Hin) as (Hb & _ & _ & Hmn & _).
  exact (conj Hb Hmn).
Defined.

Lemma heads_checked_after_process_group_witness :
  MultiHeadedAttention_init 3 1024 = Raise AssertionError
  ∧ (∃ tr, process_group example_world example_environ
             {| Args.steps := 10; Args.backend := "nccl";
                Args.redundancy_level := 0; Args.eager := false;
                Args.debug := false; Args.mem_log := false;
                Args.seed := 1138; Args.N := 8; Args.d_model := 1024;
                Args.d_ff := 2048; Args.H := 3; Args.seq := 512;
                Args.parts := "" |} = (tr, Ok tt)
          ∧ length tr = 4%nat
          ∧ test_encoder example_world example_environ
              {| Args.steps := 10; Args.backend := "nccl";
                 Args.redundancy_level := 0; Args.eager := false;
                 Args.debug := false; Args.mem_log := false;
                 Args.seed := 1138; Args.N := 8; Args.d_model := 1024;
                 Args.d_ff := 2048; Args.H := 3; Args.seq := 512;
                 Args.parts := "" |} = (tr, Raise AssertionError)).
Proof.
  split; [reflexivity|].
  eexists. split; [vm_compute; reflexivity|]. split; [reflexivity|].
  refine (proj2 (proj2 (proj2 (heads_checked_after_process_group
            example_world example_environ _ AssertionError _))) _ _).
  - reflexivity.
  - vm_compute. reflexivity.
Defined.

(** ** The partition step and the training loop in the run *)

Section run_training.

Variable W : world.
Variable environ : gmap string string.

Lemma traverse_fails {A B} (f : A → result B) (l : list A) (x : A)
    (e0 : exn) :
  x ∈ l → f x = Raise e0 → ∃ e, traverse f l = Raise e.
Proof.
  intros Hin Hx. induction l as [|y l IH]; [by apply elem_of_nil in Hin|].
  apply elem_of_cons in Hin as [<-|Hin]; simpl.
  - rewrite Hx. eauto.
  - destruct (f y) as [b|e]; simpl; [|eauto].
    destruct (IH Hin) as [e ->]. simpl. eauto.
Qed.

(** A string that ends with the separator has a second field at least,
    and its last field is empty. *)
Lemma split_trailing_sep (sep : ascii) (s : string) :
  ∃ w ws, split sep (s +:+ String sep "") = w :: ws ∧ last ws = Some "".
Proof.
  induction s as [|c s (w & ws & IH & Hlast)]; simpl.
  - rewrite decide_True by done. by exists "", [""].
  - rewrite IH. case_decide.
    + exists "", (w :: ws). split; [done|].
      destruct ws; [done|]. by rewrite last_cons_cons.
    + by exists (String c w), ws.
Qed.

Lemma split_trailing_sep_empty_field (sep : ascii) (s : string) :
  "" ∈ split sep (s +:+ String sep "").
Proof.
  destruct (split_trailing_sep sep s) as (w & ws & -> & Hlast).
  apply list_elem_of_further. by apply last_Some_elem_of.
Qed.

Lemma call_bind_head {A B} (ev : event) (r : result A) (k : A → prog B) :
  (call ev r ≫= k).1 !! 0%nat = Some ev.
Proof.
  destruct r as [a|e]; unfold mbind, prog_bind, call; [|done].
  by destruct (k a).
Qed.

Lemma partition_raises_run (args : Args.t) (e : exn) :
  partition_of_args W args = Raise e →
  (∃ e', (test_encoder W environ args).2 = Raise e')
  ∧ (test_encoder W environ args).1 = (setup W environ args).1
  ∧ Forall (λ ev, is_training_event ev = false)
      (test_encoder W environ args).1
  ∧ (∀ tr ctx, setup W environ args = (tr, Ok ctx) →
       test_encoder W environ args = (tr, Raise e)).
Proof.
  intros Hpart.
  assert (∀ tr ctx, setup W environ args = (tr, Ok ctx) →
            test_encoder W environ args = (tr, Raise e)) as Hrun.
  { intros tr [[ls D] P] Hsetup.
    by rewrite (test_encoder_unfold _ _ _ _ _ _ _ Hsetup), Hpart. }
  assert ((test_encoder W environ args).1 = (setup W environ args).1
          ∧ ∃ e', (test_encoder W environ args).2 = Raise e') as [Htr He].
  { destruct (setup W environ args) as [tr [ctx|e']] eqn:Hsetup.
    - rewrite (Hrun tr ctx eq_refl). eauto.
    - rewrite (test_encoder_setup_raises _ _ _ _ _ Hsetup). eauto. }
  repeat split; try done.
  rewrite Htr. apply Forall_forall. intros ev Hev.
  by apply setup_trace in Hev.
Qed.

(** An empty field in [--parts], as a trailing or doubled comma leaves,
    is given to [int] like any other: when [int] rejects the empty string
    no boundaries are computed, [test_encoder] raises and the pipeline
    model is not built.  A string that ends with a comma has such a
    field. *)
Theorem empty_parts_field_rejected (args : Args.t) (e0 : exn) :
  truthy_str (Args.parts args) = true →
  "" ∈ split "," (Args.parts args) →
  py_int W "" = Raise e0 →
  (∃ e, partition_of_args W args = Raise e)
  ∧ (∃ e, (test_encoder W environ args).2 = Raise e)
  ∧ Forall (λ ev, is_training_event ev = false)
      (test_encoder W environ args).1
  ∧ (∀ s, truthy_str (s +:+ ",") = true ∧ "" ∈ split "," (s +:+ ",")).
Proof.
  intros Ht Hfield Hint.
  assert (∃ e, partition_of_args W args = Raise e) as [e He].
  { unfold partition_of_args. rewrite Ht.
    destruct (traverse_fails (py_int W) _ _ _ Hfield Hint) as [e ->].
    simpl. eauto. }
  destruct (partition_raises_run args e He) as (Hr & _ & Hall & _).
  split; [eauto|]. split; [done|]. split; [done|].
  intros s. split; [by destruct s|apply split_trailing_sep_empty_field].
Qed.

(** For a non-empty [--parts] whose fields all parse, the sum alone
    decides: boundaries when it is [N], an [AssertionError] otherwise; the
    [IndexError] of an empty list cannot arise, since [split] returns at
    least one field. *)
Theorem parsed_parts_outcome (args : Args.t) (sizes : list Z) :
  truthy_str (Args.parts args) = true →
  traverse (py_int W) (split "," (Args.parts args)) = Ok sizes →
  sizes ≠ []
  ∧ length sizes = length (split "," (Args.parts args))
  ∧ (Py.sum sizes = Args.N args →
     ∃ bs, partition_of_args W args = Ok bs
       ∧ length bs = S (length sizes))
  ∧ (Py.sum sizes ≠ Args.N args →
     partition_of_args W args = Raise AssertionError).
Proof.
  intros Ht Hparse.
  pose proof (parsed_sizes_nonempty W args sizes Hparse) as Hne.
  rewrite (partition_of_args_custom W args sizes Ht Hparse).
  split; [done|]. split; [by apply (traverse_length (py_int W))|].
  split.
  - intros Hsum.
    destruct (last sizes) as [p|] eqn:Hlast; [|by apply last_None in Hlast].
    rewrite (custom_partitions_Ok _ _ p Hsum Hlast).
    eexists. split; [done|]. by rewrite boundaries_length, length_insert.
  - apply custom_partitions_mismatch.
Qed.

(** The number of sizes is not compared with the number of stages: once
    the setup has returned and the sizes sum to [N], the pipeline model is
    requested next, in custom mode, with the stage count of the
    environment and one boundary more than there are sizes, whatever the
    two numbers are. *)
Theorem custom_parts_reach_pipeline (args : Args.t) (tr : list event)
    (ls : list layer) (D P : Z) (sizes : list Z) :
  setup W environ args = (tr, Ok (ls, D, P)) →
  truthy_str (Args.parts args) = true →
  traverse (py_int W) (split "," (Args.parts args)) = Ok sizes →
  Py.sum sizes = Args.N args →
  ∃ bs, custom_partitions (Args.N args) sizes = Ok bs
    ∧ length bs = S (length sizes)
    ∧ (test_encoder W environ args).1 !! length tr
      = Some (EvPipelineModule
                {| pm_layers := layers (Args.N args);
                   pm_num_stages := P;
                   pm_partition_method := custom;
                   pm_custom_partitions := bs |}).
Proof.
  intros Hsetup Ht Hparse Hsum.
  pose proof (parsed_sizes_nonempty W args sizes Hparse) as Hne.
  destruct (last sizes) as [q|] eqn:Hlast; [|by apply last_None in Hlast].
  pose proof (custom_partitions_Ok _ _ q Hsum Hlast) as Hbs.
  rewrite <- (partition_of_args_custom W args sizes Ht Hparse) in Hbs.
  exists (boundaries (<[pred (length sizes) := q + 2]> sizes)).
  rewrite <- (partition_of_args_custom W args sizes Ht Hparse).
  split; [done|].
  split; [by rewrite boundaries_length, length_insert|].
  rewrite (test_encoder_unfold _ _ _ _ _ _ _ Hsetup), Hbs.
  apply setup_layers in Hsetup. subst ls. simpl.
  rewrite lookup_app_r by lia. rewrite Nat.sub_diag.
  unfold train. cbv zeta.
  rewrite (partition_of_args_custom W args sizes Ht Hparse) in Hbs.
  apply custom_partitions_inv in Hbs as (_ & p & _ & ->).
  simpl. apply call_bind_head.
Qed.

End run_training.

Lemma filter_none {A} (P : A → Prop) `{∀ x, Decision (P x)} (l : list A) :
  Forall (λ x, ¬ P x) l → filter P l = [].
Proof.
  induction 1 as [|x l Hx _ IH]; [done|].
  by rewrite filter_cons_False.
Qed.

Lemma filter_all {A} (P : A → Prop) `{∀ x, Decision (P x)} (l : list A) :
  Forall P l → filter P l = l.
Proof.
  induction 1 as [|x l Hx _ IH]; [done|].
  by rewrite filter_cons_True, IH.
Qed.

Section training_loop.

Variable W : world.
Variable environ : gmap string string.

Lemma train_loop_Ok (args : Args.t) (i count : nat) (t : list event) :
  train_loop W args i count = (t, Ok tt) →
  t = replicate count (EvTrainBatch (Args.debug args) (Args.mem_log args)).
Proof.
  revert i t. induction count as [|count IH]; intros i t Hloop;
    cbn [train_loop] in Hloop.
  - by injection Hloop as <-.
  - unfold mbind, prog_bind, call in Hloop.
    destruct (train_batch W i _ _) as [[]|]; [|done].
    destruct (train_loop W args (S i) count) as [t' [[]|]] eqn:Hrest;
      [|done].
    injection Hloop as <-. simpl. by rewrite (IH _ _ Hrest).
Qed.

(** The loop of lines 282-283 stops at the first [train_batch] that
    raises: the calls before it returned, it is the last call made, and
    its exception is the result of the loop. *)
Theorem training_stops_at_first_failure (args : Args.t)
    (first count i : nat) (e : exn) :
  (i < count)%nat →
  (∀ j, (j < i)%nat →
     train_batch W (first + j) (Args.debug args) (Args.mem_log args)
     = Ok tt) →
  train_batch W (first + i) (Args.debug args) (Args.mem_log args)
  = Raise e →
  train_loop W args first count
  = (replicate (S i) (EvTrainBatch (Args.debug args) (Args.mem_log args)),
     Raise e).
Proof.
  revert first i. induction count as [|count IH]; intros first i Hi Hok Hfail;
    [lia|].
  cbn [train_loop]. unfold mbind, prog_bind, call.
  destruct i as [|i].
  - rewrite Nat.add_0_r in Hfail. by rewrite Hfail.
  - pose proof (Hok 0%nat ltac:(lia)) as H0. rewrite Nat.add_0_r in H0.
    rewrite H0. rewrite (IH (S first) i); [done|lia| |].
    + intros j Hj. replace (S first + j)%nat with (first + S j)%nat by lia.
      apply Hok. lia.
    + by replace (S first + i)%nat with (first + S i)%nat by lia.
Qed.

Lemma filter_train_batch_setup (args : Args.t) :
  filter (λ ev, is_train_batch ev = true) (setup W environ args).1 = [].
Proof.
  apply filter_none, Forall_forall.
  intros ev Hev%setup_trace Htb. by destruct ev.
Qed.

(** A run of [test_encoder] that returns has called [train_batch] once
    per step from the step count the engine reported to [args.steps]:
    [args.steps - engine.global_steps] times, and not at all when the
    engine is already at or past [args.steps]. *)
Theorem training_steps_counted (args : Args.t) :
  (test_encoder W environ args).2 = Ok tt →
  ∃ global_steps,
    initialize W (Args.redundancy_level args) (Args.eager args)
    = Ok global_steps
    ∧ length (filter (λ ev, is_train_batch ev = true)
                (test_encoder W environ args).1)
      = Z.to_nat (Args.steps args - global_steps)
    ∧ (Args.steps args ≤ global_steps →
       Forall (λ ev, is_train_batch ev = false)
         (test_encoder W environ args).1).
Proof.
  intros Hret.
  destruct (setup W environ args) as [tr [[[ls D] P]|e]] eqn:Hsetup;
    [|by rewrite (test_encoder_setup_raises _ _ _ _ _ Hsetup) in Hret].
  pose proof (filter_train_batch_setup args) as Hnone.
  rewrite Hsetup in Hnone. simpl in Hnone.
  rewrite (test_encoder_unfold _ _ _ _ _ _ _ Hsetup) in Hret |- *.
  destruct (partition_of_args W args) as [ps|e]; [|done]. simpl in Hret.
  destruct (train W args ls P ps) as [t r] eqn:Htrain.
  simpl in Hret. subst r. simpl.
  unfold train in Htrain. cbv zeta in Htrain. ok_inv.
  match goal with
  | H : call (EvInitialize _ _) _ = (_, Ok ?gs) |- _ =>
      exists gs; unfold call in H; injection H as <- Hinit
  end.
  repeat match goal with
  | H : call _ _ = (_, Ok _) |- _ => unfold call in H; injection H as <- _
  end.
  apply train_loop_Ok in Htrain. subst.
  split; [done|].
  rewrite filter_app, Hnone. simpl.
  set (n := Z.to_nat _).
  assert (filter (λ ev, is_train_batch ev = true)
            (replicate n (EvTrainBatch (Args.debug args)
                            (Args.mem_log args)))
          = replicate n (EvTrainBatch (Args.debug args) (Args.mem_log args)))
    as Hfilter.
  { apply filter_all, Forall_forall.
    by intros ev [-> _]%elem_of_replicate. }
  rewrite !filter_cons. simpl. rewrite Hfilter.
  split; [by rewrite length_replicate|].
  intros Hsteps. assert (n = 0%nat) as -> by (unfold n; lia). simpl.
  apply Forall_app. split.
  - apply Forall_forall. intros ev Hev.
    assert (ev ∈ (setup W environ args).1) as Hin by (by rewrite Hsetup).
    apply setup_trace in Hin. by destruct ev.
  - by repeat constructor.
Qed.

End training_loop.

Lemma empty_parts_field_rejected_witness :
  truthy_str (Args.parts (example_args "4,4,")) = true
  ∧ "" ∈ split "," (Args.parts (example_args "4,4,"))
  ∧ py_int example_world "" = Raise ValueError
  ∧ ∃ e, (test_encoder example_world example_environ
            (example_args "4,4,")).2 = Raise e.
Proof.
  assert ("" ∈ split "," (Args.parts (example_args "4,4,"))) as Hin.
  { apply list_elem_of_lookup. by exists 2%nat. }
  split; [reflexivity|]. split; [exact Hin|]. split; [reflexivity|].
  exact (proj1 (proj2 (empty_parts_field_rejected example_world
                         example_environ (example_args "4,4,") ValueError
                         eq_refl Hin eq_refl))).
Defined.

Lemma parsed_parts_outcome_witness :
  truthy_str (Args.parts (example_args "5,3")) = true
  ∧ traverse (py_int example_world) (split "," "5,3") = Ok [5; 3]
  ∧ ∃ bs, partition_of_args example_world (example_args "5,3") = Ok bs
      ∧ length bs = 3%nat.
Proof.
  split; [reflexivity|]. split; [reflexivity|].
  exact (proj1 (proj2 (proj2 (parsed_parts_outcome example_world
                                (example_args "5,3") [5; 3]
                                eq_refl eq_refl))) eq_refl).
Defined.

Lemma custom_parts_reach_pipeline_witness :
  ∃ tr ls D,
    setup example_world example_environ (example_args "1,2,2,3")
    = (tr, Ok (ls, D, 2))
    ∧ traverse (py_int example_world) (split "," "1,2,2,3")
      = Ok [1; 2; 2; 3]
    ∧ ∃ bs, length bs = 5%nat
        ∧ (test_encoder example_world example_environ
             (example_args "1,2,2,3")).1 !! length tr
          = Some (EvPipelineModule
                    {| pm_layers := layers 8; pm_num_stages := 2;
                       pm_partition_method := custom;
                       pm_custom_partitions := bs |}).
Proof.
  eexists _, _, _. split; [vm_compute; reflexivity|].
  split; [reflexivity|].
  destruct (custom_parts_reach_pipeline example_world example_environ
              (example_args "1,2,2,3") _ _ _ 2 [1; 2; 2; 3]
              ltac:(vm_compute; reflexivity) eq_refl eq_refl eq_refl)
    as (bs & _ & Hlen & Hev).
  exists bs. exact (conj Hlen Hev).
Defined.

Lemma training_stops_at_first_failure_witness :
  (2 < 10)%nat
  ∧ train_batch failing_step_world 2 false false
    = Raise (Other "RuntimeError")
  ∧ train_loop failing_step_world (example_args "") 0 10
    = (replicate 3 (EvTrainBatch false false), Raise (Other "RuntimeError")).
Proof.
  assert (2 < 10)%nat as Hlt by lia.
  split; [exact Hlt|]. split; [reflexivity|].
  refine (training_stops_at_first_failure failing_step_world
            (example_args "") 0 10 2 (Other "RuntimeError") Hlt _ eq_refl).
  intros j Hj. simpl. rewrite bool_decide_eq_false_2 by lia. reflexivity.
Defined.

Lemma training_steps_counted_witness :
  (test_encoder example_world example_environ (example_args "")).2 = Ok tt
  ∧ ∃ global_steps,
      initialize example_world 0 false = Ok global_steps
      ∧ length (filter (λ ev, is_train_batch ev = true)
                  (test_encoder example_world example_environ
                     (example_args "")).1)
        = Z.to_nat (10 - global_steps).
Proof.
  assert ((test_encoder example_world example_environ (example_args "")).2
          = Ok tt) as Hret by (vm_compute; reflexivity).
  split; [exact Hret|].
  destruct (training_steps_counted example_world example_environ
              (example_args "") Hret) as (gs & Hinit & Hlen & _).
  exists gs. exact (conj Hinit Hlen).
Defined.

Lemma pipeline_module_args_witness :
  ∃ a, EvPipelineModule a
         ∈ (test_encoder example_world example_environ
              (example_args "")).1
    ∧ pm_layers a = layers 8
    ∧ pm_partition_method a = uniform
    ∧ pm_custom_partitions a = [].
Proof.
  exists {| pm_layers := layers 8; pm_num_stages := 2;
            pm_partition_method := uniform; pm_custom_partitions := [] |}.
  assert (EvPipelineModule
            {| pm_layers := layers 8; pm_num_stages := 2;
               pm_partition_method := uniform; pm_custom_partitions := [] |}
            ∈ (test_encoder example_world example_environ
                 (example_args "")).1) as Hin.
  { apply list_elem_of_lookup. exists 7%nat. vm_compute. reflexivity. }
  split; [exact Hin|].
  destruct (pipeline_module_args example_world example_environ
              (example_args "") _ Hin) as (ps & Hps & Hl & Hc & Hm).
  split; [exact Hl|]. split; [exact Hm|]. reflexivity.
Defined.

(** ** The host list of [get_horovod_options] *)

Section strings.

Import Pretrain.

Lemma split_no_sep (sep : ascii) (x : string) :
  has_char sep x = false → split sep x = [x].
Proof.
  induction x as [|c x IH]; simpl; [done|].
  intros [Hc Hx]%orb_false_elim. apply bool_decide_eq_false in Hc.
  rewrite decide_False by done. by rewrite (IH Hx).
Qed.

Lemma split_field (sep : ascii) (x rest : string) :
  has_char sep x = false →
  split sep (x +:+ String sep rest) = x :: split sep rest.
Proof.
  induction x as [|c x IH]; simpl.
  - intros _. by rewrite decide_True.
  - intros [Hc Hx]%orb_false_elim. apply bool_decide_eq_false in Hc.
    rewrite decide_False by done. by rewrite (IH Hx).
Qed.

(** Splitting what [join] made gives the fields back, when there is a
    field at least and no field holds the separator. *)
Lemma split_join (sep : ascii) (l : list string) :
  l ≠ [] → Forall (λ x, has_char sep x = false) l →
  split sep (join (String sep "") l) = l.
Proof.
  intros Hne Hall. induction Hall as [|x l Hx Hall IH]; [done|].
  destruct l as [|y l].
  - simpl. by apply split_no_sep.
  - change (join (String sep "") (x :: y :: l))
      with (x +:+ String sep (join (String sep "") (y :: l))).
    rewrite (split_field sep x _ Hx). f_equal. by apply IH.
Qed.

Lemma has_char_app (c : ascii) (s1 s2 : string) :
  has_char c (s1 +:+ s2) = has_char c s1 || has_char c s2.
Proof.
  induction s1 as [|a s1 IH]; simpl; [done|].
  by rewrite IH, orb_assoc.
Qed.

Lemma pretty_N_go_has_char (c : ascii) (x : N) (s : string) :
  (∀ d, pretty_N_char d ≠ c) →
  has_char c (pretty_N_go x s) = has_char c s.
Proof.
  intros Hc. revert s.
  induction (N.lt_wf_0 x) as [x _ IH]; intros s.
  assert (x = 0 ∨ 0 < x)%N as [->|Hx] by lia.
  - by rewrite pretty_N_go_0.
  - rewrite pretty_N_go_step by done.
    rewrite IH by (by apply N.div_lt). simpl.
    by rewrite (bool_decide_eq_false_2 _ (Hc _)).
Qed.

(** The numeral of an int holds digits and a minus sign only. *)
Lemma str_has_char (c : ascii) (n : Z) :
  (∀ d, pretty_N_char d ≠ c) → c ≠ "-"%char →
  has_char c (str n) = false.
Proof.
  intros Hc Hminus.
  assert (∀ p, has_char c (pretty (Npos p)) = false) as Hpos.
  { intros p. unfold pretty, pretty_N. rewrite decide_False by done.
    by rewrite pretty_N_go_has_char. }
  assert (has_char c "0" = false) as H0.
  { simpl. rewrite bool_decide_eq_false_2; [done|].
    intros <-. by apply (Hc 0%N). }
  unfold str, pretty, pretty_Z. destruct n as [|p|p]; [done|apply Hpos|].
  rewrite has_char_app. simpl.
  rewrite (bool_decide_eq_false_2 ("-"%char = c)) by done. simpl.
  apply Hpos.
Qed.

Lemma comma_not_digit (d : N) : pretty_N_char d ≠ ","%char.
Proof. unfold pretty_N_char. by repeat case_match. Qed.

Lemma colon_not_digit (d : N) : pretty_N_char d ≠ ":"%char.
Proof. unfold pretty_N_char. by repeat case_match. Qed.

(** For a non-empty list of instances whose addresses hold no comma, the
    host string of [get_horovod_options] splits at the commas into one
    entry per instance, in order, each the address, a colon and the slot
    count; an address without a colon is split off again at the colon;
    and [np] is the product of the two options, whatever the number of
    instances. *)
Theorem horovod_hosts_round_trip (C : cloud) (options : Options)
    (instances : list (instance C)) :
  instances ≠ [] →
  Forall (λ inst, has_char "," (inst_private_ip C inst) = false) instances →
  (get_horovod_options C options instances).1
  = cluster_size options * ngpus options
  ∧ split "," (get_horovod_options C options instances).2
    = (λ inst, inst_private_ip C inst +:+ ":" +:+ str (ngpus options))
      <$> instances
  ∧ length (split "," (get_horovod_options C options instances).2)
    = length instances
  ∧ Forall (λ inst,
      has_char ":" (inst_private_ip C inst) = false →
      split ":" (inst_private_ip C inst +:+ ":" +:+ str (ngpus options))
      = [inst_private_ip C inst; str (ngpus options)]) instances.
Proof.
  intros Hne Hips. unfold get_horovod_options. simpl.
  assert (split ","
            (join ","
               ((λ inst, inst_private_ip C inst +:+ ":"
                         +:+ str (ngpus options)) <$> instances))
          = (λ inst, inst_private_ip C inst +:+ ":" +:+ str (ngpus options))
            <$> instances) as Hsplit.
  { apply (split_join ","%char).
    - by destruct instances.
    - apply Forall_fmap. eapply Forall_impl; [exact Hips|].
      intros inst Hip. simpl. rewrite !has_char_app, Hip. simpl.
      apply str_has_char; [apply comma_not_digit|done]. }
  split; [done|]. split; [exact Hsplit|].
  split; [by rewrite Hsplit, length_fmap|].
  apply Forall_forall. intros inst _ Hip.
  change (inst_private_ip C inst +:+ ":" +:+ str (ngpus options))
    with (inst_private_ip C inst +:+ String ":" (str (ngpus options))).
  rewrite (split_field ":"%char _ _ Hip). f_equal.
  apply split_no_sep, str_has_char; [apply colon_not_digit|done].
Qed.

End strings.

(** ** The run of [imagenet_pretrain.run] *)

Section pretrain_io.

Import Pretrain.

Lemma io_bind_trace {A B} (m : io A) (k : A → io B) (a : action) :
  a ∈ (m ≫= k).1 → a ∈ m.1 ∨ ∃ x, m.2 = Returns x ∧ a ∈ (k x).1.
Proof.
  destruct m as [t [x|e]]; unfold mbind, io_bind; simpl.
  - destruct (k x) as [t' r] eqn:Hk. simpl. rewrite elem_of_app.
    intros [Hin|Hin]; [by left|]. right. exists x. by rewrite Hk.
  - by left.
Qed.

Lemma io_bind_Returns {A B} (m : io A) (k : A → io B) (t : list action)
    (b : B) :
  m ≫= k = (t, Returns b) →
  ∃ t1 x t2, m = (t1, Returns x) ∧ k x = (t2, Returns b) ∧ t = t1 ++ t2.
Proof.
  destruct m as [t1 [x|e]]; unfold mbind, io_bind; [|done].
  destruct (k x) as [t2 r] eqn:Hk. intros ?; simplify_eq.
  by exists t1, x, t2.
Qed.

End pretrain_io.

(** Walks down the binds of an [io] run to the call that made the action. *)
Ltac io_inv H :=
  repeat match type of H with
  | _ ∈ (_ ≫= _).1 =>
      let x := fresh "x" in let Hx := fresh "Hx" in
      apply io_bind_trace in H; destruct H as [H | (x & Hx & H)]
  | _ ∈ (Pretrain.emit _).1 => apply list_elem_of_singleton in H
  | _ ∈ (Pretrain.ext _ _).1 => apply list_elem_of_singleton in H
  | _ ∈ (Pretrain.method _ _).1 => apply list_elem_of_singleton in H
  | _ ∈ (mret _).1 => by apply elem_of_nil in H
  end.

Section pretrain_run.

Import Pretrain.

Variable C : cloud.

Lemma start_nfs_server_trace (a : action) :
  a ∈ (start_nfs_server C).1 → is_nfs_server_action a = true.
Proof.
  unfold start_nfs_server. intros Hin. io_inv Hin; by subst.
Qed.

Lemma new_instances_trace (l : list (ec2_instance C)) (a : action) :
  a ∈ (new_instances C l).1 → ∃ i, a = NewInstance i.
Proof.
  induction l as [|i l IH]; cbn [new_instances]; intros Hin.
  - by apply elem_of_nil in Hin.
  - io_inv Hin; eauto.
Qed.

Lemma new_instances_length (l : list (ec2_instance C)) (t : list action)
    (insts : list (instance C)) :
  new_instances C l = (t, Returns insts) → length insts = length l.
Proof.
  revert t insts.
  induction l as [|i l IH]; cbn [new_instances]; intros t insts Hnew.
  - by injection Hnew as _ <-.
  - apply io_bind_Returns in Hnew as (t1 & inst & t2 & _ & Hnew & _).
    apply io_bind_Returns in Hnew as (t3 & insts' & t4 & Hrest & Hret & _).
    injection Hret as _ <-. simpl. by rewrite (IH _ _ Hrest).
Qed.

Lemma finally_block_trace (ids : list string) :
  (finally_block C ids).1
  = [Print "Terminating instances"; Boto3Client]
    ++ match boto3_client C 1 with
       | Returns _ => [TerminateInstances ids]
       | Raises _ => []
       end.
Proof.
  unfold finally_block, mbind, io_bind, emit, ext.
  by destruct (boto3_client C 1) as [[]|].
Qed.

Lemma run_unfold (options : Options) (t0 : list action)
    (nfs_server : instance C) (instances : list (ec2_instance C)) :
  start_nfs_server C = (t0, Returns nfs_server) →
  create_instance C (cluster_size options) (instance_type options)
    (az options) "ami-072de7bde5a141b93" = Returns instances →
  run C options
  = (t0 ++ [Print "Allocating spot instances for workers";
            CreateInstance (cluster_size options) (instance_type options)
              (az options) "ami-072de7bde5a141b93"]
        ++ (try_block C options instances).1.1
        ++ (except_Exception (try_block C options instances).2).1
        ++ (finally_block C
              (bound_ids C (try_block C options instances).1.2)).1,
     match (finally_block C
              (bound_ids C (try_block C options instances).1.2)).2 with
     | Raises e => Raises e
     | Returns _ => (except_Exception (try_block C options instances).2).2
     end).
Proof.
  intros Hstart Hcreate. unfold run. rewrite Hstart, Hcreate.
  unfold mbind, io_bind, emit, ext.
  by destruct (try_block C options instances) as [[t bound] r].
Qed.

(** When the NFS server cannot be started, or the instances cannot be
    allocated, [run] raises that exception, asks for no termination and
    sends no command to a worker. *)
Theorem run_setup_failure (options : Options) (e : raised) :
  (start_nfs_server C).2 = Raises e
  ∨ (∃ nfs_server, (start_nfs_server C).2 = Returns nfs_server
       ∧ create_instance C (cluster_size options) (instance_type options)
           (az options) "ami-072de7bde5a141b93" = Raises e) →
  (run C options).2 = Raises e
  ∧ Forall (λ a, is_terminate a = false) (run C options).1
  ∧ Forall (λ a, ∀ k c, a ≠ SshCommand (Worker k) c) (run C options).1.
Proof.
  intros Hfail.
  assert (∃ t, run C options = (t, Raises e)
            ∧ ∀ a, a ∈ t → is_nfs_server_action a = true
                           ∨ ∃ n ty z ami, a = CreateInstance n ty z ami)
    as (t & Hrun & Ht).
  { destruct (start_nfs_server C) as [t0 [nfs|e0]] eqn:Hstart.
    - destruct Hfail as [Hfail | (nfs' & _ & Hcreate)]; [done|].
      exists (t0 ++ [Print "Allocating spot instances for workers";
                     CreateInstance (cluster_size options)
                       (instance_type options) (az options)
                       "ami-072de7bde5a141b93"]).
      split.
      + unfold run. rewrite Hstart, Hcreate. done.
      + intros a [Hin|Hin]%elem_of_app.
        * left. apply start_nfs_server_trace. by rewrite Hstart.
        * apply elem_of_cons in Hin as [->|Hin]; [by left|].
          apply list_elem_of_singleton in Hin as ->. right. eauto.
    - destruct Hfail as [Hfail | (nfs' & Hret & _)]; [|done].
      simpl in Hfail. simplify_eq. exists t0. split.
      + unfold run. by rewrite Hstart.
      + intros a Hin. left. apply start_nfs_server_trace.
        by rewrite Hstart. }
  rewrite Hrun. simpl. split; [done|]. split.
  - apply Forall_forall. intros a [Ha | (n & ty & z & ami & ->)]%Ht;
      [by destruct a|done].
  - apply Forall_forall. intros a [Ha | (n & ty & z & ami & ->)]%Ht k c;
      [by destruct a|done].
Qed.

Lemma st_bind_trace {A B} (m : st C A) (k : A → st C B)
    (insts : list (instance C)) (a : action) :
  a ∈ (st_bind C m k insts).1.1 →
  a ∈ (m insts).1.1
  ∨ ∃ t insts' x, m insts = (t, insts', Returns x) ∧ a ∈ (k x insts').1.1.
Proof.
  unfold st_bind. destruct (m insts) as [[t insts'] [x|e]]; simpl.
  - destruct (k x insts') as [[t' insts''] r] eqn:Hk. simpl.
    rewrite elem_of_app. intros [Hin|Hin]; [by left|].
    right. exists t, insts', x. by rewrite Hk.
  - by left.
Qed.

Lemma st_bind_length {A B} (m : st C A) (k : A → st C B) :
  (∀ insts, length (m insts).1.2 = length insts) →
  (∀ x insts, length (k x insts).1.2 = length insts) →
  ∀ insts, length (st_bind C m k insts).1.2 = length insts.
Proof.
  intros Hm Hk insts. unfold st_bind. specialize (Hm insts).
  destruct (m insts) as [[t insts'] [x|e]]; simpl in *; [|done].
  specialize (Hk x insts').
  destruct (k x insts') as [[t' insts''] r]. simpl in *. congruence.
Qed.

Lemma for_each_length
    (body : nat → instance C → list action * instance C * outcome unit)
    (k : nat) (insts : list (instance C)) :
  length (for_each C body k insts).1.2 = length insts.
Proof.
  revert k. induction insts as [|inst rest IH]; intros k; simpl; [done|].
  destruct (body k inst) as [[t inst'] [[]|e]]; simpl; [|done].
  specialize (IH (S k)).
  destruct (for_each C body (S k) rest) as [[t' rest'] r]. simpl in *.
  by rewrite IH.
Qed.

Lemma for_each_trace
    (body : nat → instance C → list action * instance C * outcome unit)
    (k : nat) (insts : list (instance C)) (a : action) :
  a ∈ (for_each C body k insts).1.1 →
  ∃ j inst, a ∈ (body j inst).1.1.
Proof.
  revert k. induction insts as [|inst rest IH]; intros k; simpl.
  - by intros ?%elem_of_nil.
  - destruct (body k inst) as [[t inst'] [[]|e]] eqn:Hbody; simpl.
    + specialize (IH (S k)).
      destruct (for_each C body (S k) rest) as [[t' rest'] r]. simpl in *.
      intros [Hin|Hin]%elem_of_app; [|by apply IH].
      exists k, inst. by rewrite Hbody.
    + intros Hin. exists k, inst. by rewrite Hbody.
Qed.

(** A loop that returned ran its body on every object of the list, as
    the list held it when the loop began, and every run returned. *)
Lemma for_each_Returns
    (body : nat → instance C → list action * instance C * outcome unit)
    (k : nat) (insts : list (instance C)) :
  (for_each C body k insts).2 = Returns tt →
  ∀ j inst, insts !! j = Some inst → (body (k + j)%nat inst).2 = Returns tt.
Proof.
  revert k. induction insts as [|inst rest IH]; intros k; simpl; [done|].
  destruct (body k inst) as [[t inst'] [[]|e]] eqn:Hbody; simpl; [|done].
  specialize (IH (S k)).
  destruct (for_each C body (S k) rest) as [[t' rest'] r]. simpl in *.
  intros -> [|j] inst0 Hj; simpl in Hj.
  - simplify_eq. by rewrite Nat.add_0_r, Hbody.
  - replace (k + S j)%nat with (S k + j)%nat by lia. by apply IH.
Qed.

Lemma nfs_body_Returns (k : nat) (inst : instance C) :
  (nfs_body C k inst).2 = Returns tt → nfs_mounted C inst.
Proof.
  unfold nfs_body, nfs_mounted. cbn [snd].
  destruct (ssh_command C inst "nfsiostat").2 as [p|]; [|done].
  cbn [mbind outcome_bind].
  destruct (stdout_decode C p) as [out|] eqn:Hdec;
    cbn [mbind outcome_bind]; [|done].
  destruct (contains "No NFS mount" out) eqn:Hout; [done|].
  intros _. by exists p, out.
Qed.

Lemma leader_ssh_length (command : string) (insts : list (instance C)) :
  length (leader_ssh C command insts).1.2 = length insts.
Proof. by destruct insts. Qed.

Lemma with_instances_length (options : Options)
    (insts : list (instance C)) :
  length (with_instances C options insts).1.2 = length insts.
Proof.
  revert insts. unfold with_instances, create_log_folder.
  repeat (apply st_bind_length; [|intros ?]);
    try (intros insts; first [ apply for_each_length
                             | apply leader_ssh_length
                             | by destruct insts ]).
Qed.

Lemma try_block_bound_length (options : Options)
    (instances : list (ec2_instance C)) :
  length (bound_ids C (try_block C options instances).1.2)
  = length instances.
Proof.
  unfold try_block. destruct (sleep C 5) as [[]|]; simpl;
    [|by rewrite length_fmap].
  destruct (new_instances C instances) as [t [insts|]] eqn:Hnew; simpl;
    [|by rewrite length_fmap].
  pose proof (with_instances_length options insts) as Hlen.
  destruct (with_instances C options insts) as [[t' insts'] r].
  simpl in *. rewrite length_fmap, Hlen.
  by apply new_instances_length in Hnew.
Qed.

(** Once the instances are allocated, [run] ends by asking for their
    termination, whatever happened in between: the last lines of the run
    are the announcement, the client and, when the client is made, the
    request to terminate as many ids as instances were allocated. *)
Theorem run_terminates_instances (options : Options) (t0 : list action)
    (nfs_server : instance C) (instances : list (ec2_instance C)) :
  start_nfs_server C = (t0, Returns nfs_server) →
  create_instance C (cluster_size options) (instance_type options)
    (az options) "ami-072de7bde5a141b93" = Returns instances →
  ∃ t ids,
    length ids = length instances
    ∧ (run C options).1
      = t ++ [Print "Terminating instances"; Boto3Client]
          ++ match boto3_client C 1 with
             | Returns _ => [TerminateInstances ids]
             | Raises _ => []
             end
    ∧ (boto3_client C 1 = Returns tt →
       last (run C options).1 = Some (TerminateInstances ids)).
Proof.
  intros Hstart Hcreate.
  rewrite (run_unfold options t0 nfs_server instances Hstart Hcreate).
  cbn [fst snd]. rewrite finally_block_trace.
  exists (t0 ++ [Print "Allocating spot instances for workers";
                 CreateInstance (cluster_size options)
                   (instance_type options) (az options)
                   "ami-072de7bde5a141b93"]
             ++ (try_block C options instances).1.1
             ++ (except_Exception (try_block C options instances).2).1),
    (bound_ids C (try_block C options instances).1.2).
  split; [apply try_block_bound_length|]. split.
  - by rewrite <- !app_assoc.
  - intros ->. rewrite !app_assoc. apply last_snoc.
Qed.

(** An [Exception] raised inside the [try] block does not leave [run]:
    what [run] raises comes from [start_nfs_server], from
    [create_instance], from the [finally] block, or is an exception
    outside of [Exception] that the [try] block raised. *)
Theorem run_raises_only (options : Options) (e : raised) :
  (run C options).2 = Raises e →
  (start_nfs_server C).2 = Raises e
  ∨ create_instance C (cluster_size options) (instance_type options)
      (az options) "ami-072de7bde5a141b93" = Raises e
  ∨ (∃ ids, (finally_block C ids).2 = Raises e)
  ∨ (∃ name instances,
       e = BaseOnly name
       ∧ (try_block C options instances).2 = Raises (BaseOnly name)).
Proof.
  destruct (start_nfs_server C) as [t0 [nfs|e0]] eqn:Hstart.
  - destruct (create_instance C (cluster_size options)
                (instance_type options) (az options)
                "ami-072de7bde5a141b93") as [instances|e1] eqn:Hcreate.
    + rewrite (run_unfold options t0 nfs instances Hstart Hcreate). simpl.
      destruct (finally_block C _).2 as [[]|e2] eqn:Hfin.
      * destruct (try_block C options instances).2 as [[]|[msg|name]]
          eqn:Htry; simpl; [done|done|].
        intros [= <-]. right. right. right. by exists name, instances.
      * intros [= <-]. right. right. left. eauto.
    + unfold run. rewrite Hstart, Hcreate. simpl. intros [= <-]. auto.
  - unfold run. rewrite Hstart. simpl. intros [= <-]. auto.
Qed.

(** An [Exception] raised inside the [try] block is printed after
    [[ERROR]], right before the [finally] block, and [run] returns when
    the [finally] block does. *)
Theorem run_reports_exception (options : Options) (t0 : list action)
    (nfs_server : instance C) (instances : list (ec2_instance C))
    (message : string) :
  start_nfs_server C = (t0, Returns nfs_server) →
  create_instance C (cluster_size options) (instance_type options)
    (az options) "ami-072de7bde5a141b93" = Returns instances →
  (try_block C options instances).2 = Raises (Exception message) →
  ∃ t ids,
    (run C options).1
    = t ++ [Print ("[ERROR] " +:+ message)] ++ (finally_block C ids).1
    ∧ (run C options).2 = (finally_block C ids).2.
Proof.
  intros Hstart Hcreate Htry.
  rewrite (run_unfold options t0 nfs_server instances Hstart Hcreate).
  rewrite Htry. cbn [fst snd except_Exception].
  exists (t0 ++ [Print "Allocating spot instances for workers";
                 CreateInstance (cluster_size options)
                   (instance_type options) (az options)
                   "ami-072de7bde5a141b93"]
             ++ (try_block C options instances).1.1),
    (bound_ids C (try_block C options instances).1.2).
  split; [by rewrite <- !app_assoc|].
  by destruct (finally_block C _).2 as [[]|].
Qed.

End pretrain_run.

(** Walks down the binds of the [try] block to the call that made the
    action; the steps before it are left as equations. *)
Ltac st_inv H :=
  repeat match type of H with
  | _ ∈ (Pretrain.st_bind _ _ _ _).1.1 =>
      let t := fresh "t" in let s := fresh "s" in
      let x := fresh "x" in let Hm := fresh "Hm" in
      apply st_bind_trace in H; destruct H as [H | (t & s & x & Hm & H)]
  end.

Section pretrain_gate.

Import Pretrain.

Variable C : cloud.

Lemma for_each_state
    (body : nat → instance C → list action * instance C * outcome unit)
    (insts : list (instance C)) (t : list action) (s : list (instance C))
    (r : outcome unit) :
  for_each C body 0 insts = (t, s, r) → length s = length insts.
Proof.
  intros Heq. pose proof (for_each_length C body 0 insts) as Hlen.
  by rewrite Heq in Hlen.
Qed.

Lemma leader_ssh_trace (command : string) (insts : list (instance C))
    (a : action) :
  a ∈ (leader_ssh C command insts).1.1 →
  a = SshCommand (Worker 0) command.
Proof.
  destruct insts as [|leader rest]; simpl.
  - by intros ?%elem_of_nil.
  - by intros ?%list_elem_of_singleton.
Qed.

Lemma create_log_folder_Returns (insts : list (instance C))
    (t : list action) (s : list (instance C)) (log_dir : string) :
  create_log_folder C insts = (t, s, Returns log_dir) →
  log_dir = "~/experiment/imagenet-pretrain"%string
  ∧ length s = length insts.
Proof.
  unfold create_log_folder, st_bind, st_ret. cbv zeta.
  pose proof (leader_ssh_length C
    ("mkdir -p " +:+ path_join "~" ["experiment"; "imagenet-pretrain"])
    insts) as Hlen.
  destruct (leader_ssh C _ insts) as [[t' s'] [[]|]]; [|done].
  simpl in Hlen. intros [= <- <- <-]. split; [reflexivity|done].
Qed.

(** Inside the [try] block a command other than [nfsiostat] is sent to
    the first instance only, after every instance passed the NFS check:
    it is the [mkdir] of the log folder or the command of
    [construct_run_cmd] for that folder. *)
Lemma with_instances_command (options : Options)
    (insts : list (instance C)) (k : nat) (command : string) :
  SshCommand (Worker k) command ∈ (with_instances C options insts).1.1 →
  command ≠ "nfsiostat"%string →
  k = 0%nat
  ∧ (∃ checked, length checked = length insts ∧ checked ≠ []
       ∧ Forall (nfs_mounted C) checked)
  ∧ (command = "mkdir -p ~/experiment/imagenet-pretrain"%string
     ∨ ∃ final, length final = length insts
         ∧ command = construct_run_cmd C options
                       "~/experiment/imagenet-pretrain" final).
Proof.
  unfold with_instances, create_log_folder. cbv zeta.
  intros Hin Hcmd. st_inv Hin.
  - apply for_each_trace in Hin as (j & inst & Hin).
    by apply list_elem_of_singleton in Hin.
  - by apply list_elem_of_singleton in Hin.
  - apply for_each_trace in Hin as (j & inst & Hin).
    by apply list_elem_of_singleton in Hin.
  - by apply list_elem_of_singleton in Hin.
  - apply for_each_trace in Hin as (j & inst & Hin).
    apply list_elem_of_singleton in Hin. by simplify_eq.
  - destruct s3; by apply elem_of_nil in Hin.
  - apply leader_ssh_trace in Hin. injection Hin as -> ->.
    split; [done|]. split; [|by left].
    exists s1. unfold st_print in Hm0, Hm2.
    injection Hm0 as _ <- _. injection Hm2 as _ <- _.
    apply for_each_state in Hm as Hl0, Hm1 as Hl1, Hm3 as Hl3.
    split; [congruence|]. split.
    + intros ->. by destruct s3.
    + apply Forall_lookup. intros j inst Hj.
      assert ((for_each C (nfs_body C) 0 s1).2 = Returns tt) as Hret
        by (rewrite Hm3; by destruct x3).
      apply (nfs_body_Returns C j).
      by apply (for_each_Returns C _ 0%nat s1 Hret j inst).
  - by apply elem_of_nil in Hin.
  - by apply elem_of_nil in Hin.
  - by apply list_elem_of_singleton in Hin.
  - apply leader_ssh_trace in Hin. injection Hin as -> ->.
    unfold st_print in Hm0, Hm2.
    injection Hm0 as _ <- _. injection Hm2 as _ <- _.
    apply for_each_state in Hm as Hl0, Hm1 as Hl1, Hm3 as Hl3.
    split; [done|]. split.
    + exists s1. split; [congruence|]. split.
      * intros ->. by destruct s3.
      * apply Forall_lookup. intros j inst Hj.
        assert ((for_each C (nfs_body C) 0 s1).2 = Returns tt) as Hret
          by (rewrite Hm3; by destruct x3).
        apply (nfs_body_Returns C j).
        by apply (for_each_Returns C _ 0%nat s1 Hret j inst).
    + right. exists s5. injection Hm6 as _ _ <-.
      apply create_log_folder_Returns in Hm5 as [-> Hl5].
      split; [|done].
      assert (s4 = s3) as Hs4.
      { destruct s3; [done|]. by injection Hm4 as _ <- _. }
      congruence.
Qed.

End pretrain_gate.

Section pretrain_claims.

Import Pretrain.

Variable C : cloud.

Lemma try_block_command (options : Options)
    (instances : list (ec2_instance C)) (k : nat) (command : string) :
  SshCommand (Worker k) command ∈ (try_block C options instances).1.1 →
  ∃ insts, length insts = length instances
    ∧ SshCommand (Worker k) command
      ∈ (with_instances C options insts).1.1.
Proof.
  unfold try_block. destruct (sleep C 5) as [[]|]; simpl.
  - destruct (new_instances C instances) as [t [insts|]] eqn:Hnew; simpl.
    + destruct (with_instances C options insts) as [[t' insts'] r] eqn:Hw.
      simpl. intros [?|[Hin|Hin]%elem_of_app]%elem_of_cons; [done| |].
      * assert (SshCommand (Worker k) command
                  ∈ (new_instances C instances).1) as Hin'
          by (by rewrite Hnew).
        by apply new_instances_trace in Hin' as [i ?].
      * exists insts. split; [by apply new_instances_length in Hnew|].
        by rewrite Hw.
    + intros [?|Hin]%elem_of_cons; [done|].
      assert (SshCommand (Worker k) command
                ∈ (new_instances C instances).1) as Hin'
        by (by rewrite Hnew).
      by apply new_instances_trace in Hin' as [i ?].
  - by intros ?%list_elem_of_singleton.
Qed.

(** In a run, a command other than [nfsiostat] reaches the first
    instance only, and only after every allocated instance answered
    [nfsiostat] without the report of a missing mount: one instance
    without its NFS volume, or an empty allocation, and neither the log
    folder is made nor the training command sent.  The command is the
    [mkdir] of the log folder or the one [construct_run_cmd] builds for
    it. *)
Theorem nfs_check_gates_commands (options : Options) (k : nat)
    (command : string) :
  SshCommand (Worker k) command ∈ (run C options).1 →
  command ≠ "nfsiostat"%string →
  k = 0%nat
  ∧ (∃ instances checked,
       create_instance C (cluster_size options) (instance_type options)
         (az options) "ami-072de7bde5a141b93" = Returns instances
       ∧ length checked = length instances ∧ checked ≠ []
       ∧ Forall (nfs_mounted C) checked)
  ∧ (command = "mkdir -p ~/experiment/imagenet-pretrain"%string
     ∨ ∃ final,
         command = construct_run_cmd C options
                     "~/experiment/imagenet-pretrain" final).
Proof.
  intros Hin Hcmd.
  destruct (start_nfs_server C) as [t0 [nfs|e0]] eqn:Hstart.
  - destruct (create_instance C (cluster_size options)
                (instance_type options) (az options)
                "ami-072de7bde5a141b93") as [instances|e1] eqn:Hcreate.
    + rewrite (run_unfold C options t0 nfs instances Hstart Hcreate) in Hin.
      cbn [fst] in Hin. rewrite finally_block_trace in Hin.
      apply elem_of_app in Hin as [Hin|Hin].
      { assert (SshCommand (Worker k) command ∈ (start_nfs_server C).1)
          as Hin' by (by rewrite Hstart).
        by apply start_nfs_server_trace in Hin'. }
      apply elem_of_app in Hin as [Hin|Hin].
      { apply elem_of_cons in Hin as [?|Hin]; [done|].
        by apply list_elem_of_singleton in Hin. }
      apply elem_of_app in Hin as [Hin|Hin].
      * apply try_block_command in Hin as (insts & Hlen & Hin).
        destruct (with_instances_command C options insts k command Hin Hcmd)
          as (Hk & (checked & Hc1 & Hc2 & Hc3) & Hwhich).
        split; [done|]. split.
        -- exists instances, checked. repeat split; try done. congruence.
        -- destruct Hwhich as [->|(final & _ & ->)]; [by left|].
           right. by exists final.
      * apply elem_of_app in Hin as [Hin|Hin].
        -- destruct (try_block C options instances).2 as [[]|[msg|name]];
             simpl in Hin.
           ++ by apply elem_of_nil in Hin.
           ++ by apply list_elem_of_singleton in Hin.
           ++ by apply elem_of_nil in Hin.
        -- apply elem_of_app in Hin as [Hin|Hin].
           ++ apply elem_of_cons in Hin as [?|Hin]; [done|].
              by apply list_elem_of_singleton in Hin.
           ++ destruct (boto3_client C 1) as [[]|].
              ** by apply list_elem_of_singleton in Hin.
              ** by apply elem_of_nil in Hin.
    + exfalso. unfold run in Hin. rewrite Hstart, Hcreate in Hin.
      simpl in Hin. apply elem_of_app in Hin as [Hin|Hin].
      * assert (SshCommand (Worker k) command ∈ (start_nfs_server C).1)
          as Hin' by (by rewrite Hstart).
        by apply start_nfs_server_trace in Hin'.
      * apply elem_of_cons in Hin as [?|Hin]; [done|].
        by apply list_elem_of_singleton in Hin.
  - exfalso. unfold run in Hin. rewrite Hstart in Hin. simpl in Hin.
    assert (SshCommand (Worker k) command ∈ (start_nfs_server C).1)
      as Hin' by (by rewrite Hstart).
    by apply start_nfs_server_trace in Hin'.
Qed.

(** An allocation of no instance: the [try] block ends on
    [instances[0]], the [IndexError] is printed after [[ERROR]], no
    method is called on any instance, and the [finally] block asks to
    terminate an empty list of ids. *)
Theorem run_empty_cluster (options : Options) (t0 : list action)
    (nfs_server : instance C) :
  start_nfs_server C = (t0, Returns nfs_server) →
  create_instance C (cluster_size options) (instance_type options)
    (az options) "ami-072de7bde5a141b93" = Returns [] →
  sleep C 5 = Returns tt →
  run C options
  = (t0 ++ [ Print "Allocating spot instances for workers";
             CreateInstance (cluster_size options) (instance_type options)
               (az options) "ami-072de7bde5a141b93";
             Sleep 5;
             Print "Waiting for SSH connections to all instances";
             Print
               "Checking to make sure every server can access the NFS drive";
             Print "[ERROR] list index out of range" ]
        ++ (finally_block C []).1,
     (finally_block C []).2).
Proof.
  intros Hstart Hcreate Hsleep.
  rewrite (run_unfold C options t0 nfs_server [] Hstart Hcreate).
  unfold try_block. rewrite Hsleep. cbn.
  destruct (boto3_client C 1) as [[]|]; [|reflexivity].
  by destruct (terminate_instances C []) as [[]|].
Qed.

End pretrain_claims.

Section pretrain_witnesses.

Import Pretrain.

Lemma horovod_hosts_round_trip_witness :
  let instances := [("1", "10.0.0.1"); ("2", "10.0.0.2")]%string in
  instances ≠ []
  ∧ Forall (λ inst, has_char "," (inst_private_ip (example_cloud "") inst)
                    = false) instances
  ∧ (get_horovod_options (example_cloud "") (example_options 2)
       instances).2 = "10.0.0.1:4,10.0.0.2:4"%string
  ∧ split "," "10.0.0.1:4,10.0.0.2:4" = ["10.0.0.1:4"; "10.0.0.2:4"]%string
  ∧ length (split "," (get_horovod_options (example_cloud "")
                         (example_options 2) instances).2) = 2%nat.
Proof.
  intros instances.
  assert (instances ≠ []) as Hne by discriminate.
  assert (Forall (λ inst,
            has_char "," (inst_private_ip (example_cloud "") inst) = false)
            instances) as Hips by (repeat constructor).
  split; [exact Hne|]. split; [exact Hips|].
  split; [reflexivity|]. split; [reflexivity|].
  exact (proj1 (proj2 (proj2 (horovod_hosts_round_trip (example_cloud "")
                                (example_options 2) instances Hne Hips)))).
Defined.

Lemma run_setup_failure_witness :
  (∃ nfs_server,
     (start_nfs_server no_capacity_cloud).2 = Returns nfs_server
     ∧ create_instance no_capacity_cloud 2 "p3.8xlarge" "us-east-1a"
         "ami-072de7bde5a141b93"
       = Raises (Exception "InsufficientInstanceCapacity"))
  ∧ (run no_capacity_cloud (example_options 2)).2
    = Raises (Exception "InsufficientInstanceCapacity").
Proof.
  assert (∃ nfs_server,
     (start_nfs_server no_capacity_cloud).2 = Returns nfs_server
     ∧ create_instance no_capacity_cloud
         (cluster_size (example_options 2))
         (instance_type (example_options 2)) (az (example_options 2))
         "ami-072de7bde5a141b93"
       = Raises (Exception "InsufficientInstanceCapacity")) as Hfail.
  { eexists. split; reflexivity. }
  split; [exact Hfail|].
  exact (proj1 (run_setup_failure no_capacity_cloud (example_options 2)
                  _ (or_intror Hfail))).
Defined.

Lemma run_terminates_instances_witness :
  ∃ t0 nfs_server,
    start_nfs_server (example_cloud "No NFS mount") = (t0, Returns nfs_server)
    ∧ create_instance (example_cloud "No NFS mount") 2 "p3.8xlarge"
        "us-east-1a" "ami-072de7bde5a141b93" = Returns ["1"; "2"]%string
    ∧ ∃ ids, length ids = 2%nat
        ∧ last (run (example_cloud "No NFS mount") (example_options 2)).1
          = Some (TerminateInstances ids).
Proof.
  eexists _, _. split; [reflexivity|]. split; [reflexivity|].
  destruct (run_terminates_instances (example_cloud "No NFS mount")
              (example_options 2) _ _ ["1"; "2"]%string eq_refl eq_refl)
    as (t & ids & Hlen & _ & Hlast).
  exists ids. exact (conj Hlen (Hlast eq_refl)).
Defined.

Lemma run_raises_only_witness :
  (run interrupted_cloud (example_options 2)).2
  = Raises (BaseOnly "KeyboardInterrupt")
  ∧ ((start_nfs_server interrupted_cloud).2
     = Raises (BaseOnly "KeyboardInterrupt")
     ∨ create_instance interrupted_cloud 2 "p3.8xlarge" "us-east-1a"
         "ami-072de7bde5a141b93" = Raises (BaseOnly "KeyboardInterrupt")
     ∨ (∃ ids, (finally_block interrupted_cloud ids).2
               = Raises (BaseOnly "KeyboardInterrupt"))
     ∨ (∃ name instances,
          BaseOnly "KeyboardInterrupt" = BaseOnly name
          ∧ (try_block interrupted_cloud (example_options 2) instances).2
            = Raises (BaseOnly name))).
Proof.
  assert ((run interrupted_cloud (example_options 2)).2
          = Raises (BaseOnly "KeyboardInterrupt")) as Hrun by reflexivity.
  split; [exact Hrun|].
  exact (run_raises_only interrupted_cloud (example_options 2) _ Hrun).
Defined.

Lemma run_reports_exception_witness :
  ∃ t0 nfs_server,
    start_nfs_server (example_cloud "No NFS mount") = (t0, Returns nfs_server)
    ∧ (try_block (example_cloud "No NFS mount") (example_options 2)
         ["1"; "2"]%string).2
      = Raises (no_nfs_volume "1")
    ∧ (run (example_cloud "No NFS mount") (example_options 2)).2
      = Returns tt.
Proof.
  eexists _, _. split; [reflexivity|]. split; [by vm_compute|].
  destruct (run_reports_exception (example_cloud "No NFS mount")
              (example_options 2) _ _ ["1"; "2"]%string _
              eq_refl eq_refl ltac:(vm_compute; reflexivity))
    as (t & ids & _ & Hres).
  rewrite Hres. reflexivity.
Defined.

Lemma nfs_check_gates_commands_witness :
  SshCommand (Worker 0) "mkdir -p ~/experiment/imagenet-pretrain"
    ∈ (run (example_cloud "") (example_options 2)).1
  ∧ ∃ instances checked,
      create_instance (example_cloud "") 2 "p3.8xlarge" "us-east-1a"
        "ami-072de7bde5a141b93" = Returns instances
      ∧ length checked = length instances ∧ checked ≠ []
      ∧ Forall (nfs_mounted (example_cloud "")) checked.
Proof.
  assert (SshCommand (Worker 0) "mkdir -p ~/experiment/imagenet-pretrain"
            ∈ (run (example_cloud "") (example_options 2)).1) as Hin.
  { apply list_elem_of_lookup. exists 19%nat. vm_compute. reflexivity. }
  split; [exact Hin|].
  exact (proj1 (proj2 (nfs_check_gates_commands (example_cloud "")
                         (example_options 2) 0 _ Hin
                         ltac:(discriminate)))).
Defined.

Lemma run_empty_cluster_witness :
  ∃ t0 nfs_server,
    start_nfs_server (example_cloud "") = (t0, Returns nfs_server)
    ∧ create_instance (example_cloud "") 0 "p3.8xlarge" "us-east-1a"
        "ami-072de7bde5a141b93" = Returns []
    ∧ sleep (example_cloud "") 5 = Returns tt
    ∧ (run (example_cloud "") (example_options 0)).2 = Returns tt
    ∧ last (run (example_cloud "") (example_options 0)).1
      = Some (TerminateInstances []).
Proof.
  eexists _, _. split; [reflexivity|]. split; [reflexivity|].
  split; [reflexivity|].
  rewrite (run_empty_cluster (example_cloud "") (example_options 0) _ _
             eq_refl eq_refl eq_refl).
  split; reflexivity.
Defined.

End pretrain_witnesses.
